(** * create-pdf: a shallow embedding of [create-pdf.py] and its properties

    The development follows the source file top-down: Python values as
    [json.load] produces them, [pathlib] paths, the file system as the
    program observes it, the page geometry offered by the PDF codec, and
    then the methods of [PDFConverter] written in a state-and-exception
    monad.  The theorems at the end are stated about these definitions. *)

From Stdlib Require Import Bool List String Ascii ZArith QArith Lia Arith.
From Stdlib Require Import Permutation Sorted.
From Stdlib Require Import DecimalString DecimalNat.
Import ListNotations.

Set Warnings "-register-all".
Open Scope string_scope.
Open Scope list_scope.

Notation "a +++ b" := (String.append a b) (at level 60, right associativity).

(** ** Text helpers

    Python [str] methods the program calls.  A string is the UTF-8
    encoding of the Python [str]: a character above U+007F takes two to
    four bytes, and the byte-wise order of [String.ltb] is the code-point
    order Python uses.  Bytes that are not well-formed UTF-8 stand for no
    Python string. *)

Module Text.

Definition is_upper (c : ascii) : bool :=
  (65 <=? nat_of_ascii c)%nat && (nat_of_ascii c <=? 90)%nat.

Definition lower_char (c : ascii) : ascii :=
  if is_upper c then ascii_of_nat (nat_of_ascii c + 32) else c.

(** [s.lower()] on ASCII letters.  The program only compares the result
    with suffixes written in ASCII letters, and no character outside ASCII
    lowers to one of the letters they are written in. *)
Fixpoint lower (s : string) : string :=
  match s with
  | EmptyString => EmptyString
  | String c s' => String (lower_char c) (lower s')
  end.

(** The characters [str.strip()] removes are those of [str.isspace()].
    Below U+0080: space, tab, newline, vertical tab, form feed, carriage
    return and the four separators 28..31. *)
Definition is_space (c : ascii) : bool :=
  let n := nat_of_ascii c in
  (n =? 32)%nat || ((9 <=? n)%nat && (n <=? 13)%nat)
                || ((28 <=? n)%nat && (n <=? 31)%nat).

(** In two bytes: U+0085 (C2 85) and U+00A0 (C2 A0). *)
Definition is_space2 (c1 c2 : ascii) : bool :=
  let n1 := nat_of_ascii c1 in
  let n2 := nat_of_ascii c2 in
  (n1 =? 194)%nat && ((n2 =? 133)%nat || (n2 =? 160)%nat).

(** In three bytes: U+1680 (E1 9A 80), U+2000..U+200A (E2 80 80..8A),
    U+2028 and U+2029 (E2 80 A8, A9), U+202F (E2 80 AF), U+205F (E2 81 9F)
    and U+3000 (E3 80 80). *)
Definition is_space3 (c1 c2 c3 : ascii) : bool :=
  let n1 := nat_of_ascii c1 in
  let n2 := nat_of_ascii c2 in
  let n3 := nat_of_ascii c3 in
  ((n1 =? 225)%nat && (n2 =? 154)%nat && (n3 =? 128)%nat)
  || ((n1 =? 226)%nat && (n2 =? 128)%nat
      && (((128 <=? n3)%nat && (n3 <=? 138)%nat)
          || (n3 =? 168)%nat || (n3 =? 169)%nat || (n3 =? 175)%nat))
  || ((n1 =? 226)%nat && (n2 =? 129)%nat && (n3 =? 159)%nat)
  || ((n1 =? 227)%nat && (n2 =? 128)%nat && (n3 =? 128)%nat).

(** The string is one white-space character. *)
Definition is_space_char (s : string) : bool :=
  match s with
  | String c EmptyString => is_space c
  | String c1 (String c2 EmptyString) => is_space2 c1 c2
  | String c1 (String c2 (String c3 EmptyString)) => is_space3 c1 c2 c3
  | _ => false
  end.

Fixpoint lstrip (s : string) : string :=
  match s with
  | EmptyString => EmptyString
  | String c1 s1 =>
      if is_space c1 then lstrip s1
      else match s1 with
           | EmptyString => s
           | String c2 s2 =>
               if is_space2 c1 c2 then lstrip s2
               else match s2 with
                    | EmptyString => s
                    | String c3 s3 => if is_space3 c1 c2 c3 then lstrip s3 else s
                    end
           end
  end.

(** What is left of [String c s'] once [s'] is stripped ends with a
    white-space character only if it is that character and nothing else. *)
Fixpoint rstrip (s : string) : string :=
  match s with
  | EmptyString => EmptyString
  | String c s' =>
      let r := String c (rstrip s') in
      if is_space_char r then EmptyString else r
  end.

Definition strip (s : string) : string := rstrip (lstrip s).


(** [s.split("/")]. *)
Fixpoint split_slash (s : string) : list string :=
  match s with
  | EmptyString => [EmptyString]
  | String c s' =>
      if Ascii.eqb c "/" then EmptyString :: split_slash s'
      else match split_slash s' with
           | [] => [String c EmptyString]
           | w :: ws => String c w :: ws
           end
  end.

(** [s.rfind(".")], [None] for -1. *)
Fixpoint rfind_dot (s : string) : option nat :=
  match s with
  | EmptyString => None
  | String c s' =>
      match rfind_dot s' with
      | Some i => Some (S i)
      | None => if Ascii.eqb c "." then Some 0%nat else None
      end
  end.

Fixpoint ends_with_slash (s : string) : bool :=
  match s with
  | EmptyString => false
  | String c EmptyString => Ascii.eqb c "/"
  | String _ s' => ends_with_slash s'
  end.

Fixpoint leading_slashes (s : string) : nat :=
  match s with
  | String c s' => if Ascii.eqb c "/" then S (leading_slashes s') else 0%nat
  | EmptyString => 0%nat
  end.

(** [str(n)] for a non-negative counter, as an f-string prints it. *)
Definition decimal (n : nat) : string :=
  NilEmpty.string_of_uint (Nat.to_uint n).

End Text.

(** ** pathlib

    [Path(s)] keeps an anchor and the list of components; parsing drops
    empty and ["."] components, so that [str(Path(s))] is the normal form
    pathlib prints (POSIX flavour). *)

Module Path.

Record t := mk { anchor : string; parts : list string }.

Definition anchor_of (s : string) : string :=
  match Text.leading_slashes s with
  | 0%nat => ""
  | 2%nat => "//"
  | _ => "/"
  end.

Definition keep_part (seg : string) : bool :=
  negb (String.eqb seg "" || String.eqb seg ".").

(** [Path(s)] *)
Definition of_string (s : string) : t :=
  mk (anchor_of s) (filter keep_part (Text.split_slash s)).

(** [str(p)] *)
Definition to_string (p : t) : string :=
  match parts p with
  | [] => if String.eqb (anchor p) "" then "." else anchor p
  | _ => anchor p +++ String.concat "/" (parts p)
  end.

(** [p.parent] *)
Definition parent (p : t) : t := mk (anchor p) (removelast (parts p)).

(** [p.name] *)
Definition name (p : t) : string := last (parts p) "".

Definition suffix_of_name (nm : string) : string :=
  match Text.rfind_dot nm with
  | Some i =>
      if ((0 <? i) && (i <? String.length nm - 1))%nat
      then substring i (String.length nm - i) nm else ""
  | None => ""
  end.

Definition stem_of_name (nm : string) : string :=
  match Text.rfind_dot nm with
  | Some i =>
      if ((0 <? i) && (i <? String.length nm - 1))%nat
      then substring 0 i nm else nm
  | None => nm
  end.

(** [p.suffix] and [p.stem] *)
Definition suffix (p : t) : string := suffix_of_name (name p).
Definition stem (p : t) : string := stem_of_name (name p).

(** [p / nm] for a single component [nm] (a directory entry name or a
    file name built from a stem): the component is appended. *)
Definition child (p : t) (nm : string) : t := mk (anchor p) (parts p ++ [nm]).

(** [p.with_suffix(sfx)].  pathlib raises [ValueError] on a path with an
    empty name; the caller below only reaches this with a non-empty
    suffix, hence a non-empty name. *)
Definition with_suffix (p : t) (sfx : string) : t :=
  child (parent p) (stem p +++ sfx).

End Path.

(** [os.path.join(a, b)] for a relative [b]. *)
Definition os_path_join (a b : string) : string :=
  if String.eqb a "" then b
  else if Text.ends_with_slash a then a +++ b
  else a +++ "/" +++ b.

(** ** Python values

    What [json.load] returns: [None], booleans, integers, strings, lists
    and dictionaries (numbers are modelled as integers). *)

Inductive value : Type :=
| VNone
| VBool (b : bool)
| VInt (n : Z)
| VStr (s : string)
| VList (items : list value)
| VDict (entries : list (string * value)).

Fixpoint dict_get (k : string) (d : list (string * value)) : option value :=
  match d with
  | [] => None
  | (k', v) :: d' => if String.eqb k k' then Some v else dict_get k d'
  end.

(** [k in d] *)
Definition dict_has (k : string) (d : list (string * value)) : bool :=
  match dict_get k d with Some _ => true | None => false end.

Definition isinstance_str (v : value) : bool :=
  match v with VStr _ => true | _ => false end.

Definition isinstance_dict (v : value) : bool :=
  match v with VDict _ => true | _ => false end.

(** [a == b].  [bool] is a subclass of [int], so [True == 1]. *)
Fixpoint py_eq (a b : value) : bool :=
  match a, b with
  | VNone, VNone => true
  | VBool x, VBool y => Bool.eqb x y
  | VBool x, VInt n => Z.eqb (Z.b2z x) n
  | VInt n, VBool y => Z.eqb n (Z.b2z y)
  | VInt n, VInt m => Z.eqb n m
  | VStr s, VStr t => String.eqb s t
  | VList xs, VList ys =>
      (fix all2 (xs ys : list value) : bool :=
         match xs, ys with
         | [], [] => true
         | x :: xs', y :: ys' => py_eq x y && all2 xs' ys'
         | _, _ => false
         end) xs ys
  | VDict xs, VDict ys =>
      Nat.eqb (List.length xs) (List.length ys)
      && (fix sub (xs : list (string * value)) : bool :=
            match xs with
            | [] => true
            | (k, v) :: xs' =>
                match dict_get k ys with
                | Some v' => py_eq v v' && sub xs'
                | None => false
                end
            end) xs
  | _, _ => false
  end.

(** [a < b]; [None] stands for the [TypeError] Python raises on operands
    that have no order. *)
Fixpoint py_lt (a b : value) : option bool :=
  match a, b with
  | VStr s, VStr t => Some (String.ltb s t)
  | VBool x, VBool y => Some (Z.ltb (Z.b2z x) (Z.b2z y))
  | VBool x, VInt n => Some (Z.ltb (Z.b2z x) n)
  | VInt n, VBool y => Some (Z.ltb n (Z.b2z y))
  | VInt n, VInt m => Some (Z.ltb n m)
  | VList xs, VList ys =>
      (fix lex (xs ys : list value) : option bool :=
         match xs, ys with
         | [], [] => Some false
         | [], _ :: _ => Some true
         | _ :: _, [] => Some false
         | x :: xs', y :: ys' => if py_eq x y then lex xs' ys' else py_lt x y
         end) xs ys
  | _, _ => None
  end.

(** [v in l] *)
Definition py_in (v : value) (l : list value) : bool := existsb (py_eq v) l.

(** ** Exceptions and results *)

Inductive exn_class :=
| TypeError | ValueError | JSONDecodeError | KeyError | AttributeError
| EOFError | OSError | FileNotFoundError | PdfReadError | OtherException
| KeyboardInterrupt | SystemExit.

Record exn := mkExn { exn_class_of : exn_class; exn_str : string }.

(** [isinstance(e, Exception)]: everything but the two [BaseException]-only
    classes. *)
Definition is_Exception (e : exn) : bool :=
  match exn_class_of e with
  | KeyboardInterrupt | SystemExit => false
  | _ => true
  end.

Definition is_class (c : exn_class) (e : exn) : bool :=
  match c, exn_class_of e with
  | TypeError, TypeError | ValueError, ValueError
  | JSONDecodeError, JSONDecodeError | KeyError, KeyError
  | AttributeError, AttributeError | EOFError, EOFError
  | OSError, OSError | OSError, FileNotFoundError
  | FileNotFoundError, FileNotFoundError | PdfReadError, PdfReadError
  | OtherException, OtherException | KeyboardInterrupt, KeyboardInterrupt
  | SystemExit, SystemExit | ValueError, JSONDecodeError => true
  | _, _ => false
  end.

Inductive result (A : Type) : Type :=
| Return (a : A)
| Raise (e : exn).
Arguments Return {A} a.
Arguments Raise {A} e.

(** [for x in v] — the elements a [for] loop or [sorted] draws from a value. *)
Definition py_iter (v : value) : result (list value) :=
  match v with
  | VList l => Return l
  | VStr s => Return (map (fun c => VStr (String c EmptyString)) (list_ascii_of_string s))
  | VDict d => Return (map (fun kv => VStr (fst kv)) d)
  | _ => Raise (mkExn TypeError "object is not iterable")
  end.

(** ** Sorting

    [sorted] is stable and only uses [<].  On a total order every stable
    sort returns the same list; it is written here as an insertion sort. *)

Section Sorting.
Context {A : Type}.

Fixpoint insert_by (lt : A -> A -> bool) (x : A) (l : list A) : list A :=
  match l with
  | [] => [x]
  | y :: l' => if lt y x then y :: insert_by lt x l' else x :: l
  end.

Definition sorted_by (lt : A -> A -> bool) (l : list A) : list A :=
  fold_right (insert_by lt) [] l.
End Sorting.

(** [sorted] on strings, on the tuples [os.walk] yields, and on arbitrary
    values (where a comparison may raise). *)
Definition sorted_str : list string -> list string := sorted_by String.ltb.

Fixpoint list_str_lt (xs ys : list string) : bool :=
  match xs, ys with
  | [], [] => false
  | [], _ :: _ => true
  | _ :: _, [] => false
  | x :: xs', y :: ys' => if String.eqb x y then list_str_lt xs' ys' else String.ltb x y
  end.

Fixpoint list_str_eqb (xs ys : list string) : bool :=
  match xs, ys with
  | [], [] => true
  | x :: xs', y :: ys' => String.eqb x y && list_str_eqb xs' ys'
  | _, _ => false
  end.

Definition walk_item : Type := string * list string * list string.

Definition walk_root (it : walk_item) : string := fst (fst it).
Definition walk_dirnames (it : walk_item) : list string := snd (fst it).
Definition walk_filenames (it : walk_item) : list string := snd it.

(** Tuple comparison: the first component that differs decides. *)
Definition walk_item_lt (a b : walk_item) : bool :=
  if negb (String.eqb (walk_root a) (walk_root b))
  then String.ltb (walk_root a) (walk_root b)
  else if negb (list_str_eqb (walk_dirnames a) (walk_dirnames b))
  then list_str_lt (walk_dirnames a) (walk_dirnames b)
  else list_str_lt (walk_filenames a) (walk_filenames b).

Fixpoint py_insert (x : value) (l : list value) : result (list value) :=
  match l with
  | [] => Return [x]
  | y :: l' =>
      match py_lt y x with
      | None => Raise (mkExn TypeError "'<' not supported between instances")
      | Some true =>
          match py_insert x l' with
          | Return r => Return (y :: r)
          | Raise e => Raise e
          end
      | Some false => Return (x :: l)
      end
  end.

Fixpoint py_sorted_list (l : list value) : result (list value) :=
  match l with
  | [] => Return []
  | x :: l' =>
      match py_sorted_list l' with
      | Return r => py_insert x r
      | Raise e => Raise e
      end
  end.

(** [sorted(v)] *)
Definition py_sorted (v : value) : result (list value) :=
  match py_iter v with
  | Return l => py_sorted_list l
  | Raise e => Raise e
  end.

(** ** The file system

    A directory entry is a regular file, a directory, or something else
    that exists (a FIFO, a socket, a device).  The file system is the
    finite table of the paths that exist, keyed by the string pathlib
    prints for them; a directory carries its listing, in the order the
    operating system returns it. *)

Inductive node : Type :=
| File
| Special
| Dir (entries : list (string * node)).

Definition filesystem : Type := list (string * node).

Fixpoint fs_lookup (fs : filesystem) (p : string) : option node :=
  match fs with
  | [] => None
  | (k, n) :: fs' => if String.eqb p k then Some n else fs_lookup fs' p
  end.

Definition fs_exists (fs : filesystem) (p : string) : bool :=
  match fs_lookup fs p with Some _ => true | None => false end.

Definition fs_remove (fs : filesystem) (p : string) : filesystem :=
  filter (fun kn => negb (String.eqb p (fst kn))) fs.

Definition fs_create (fs : filesystem) (p : string) : filesystem :=
  (p, File) :: fs_remove fs p.

(** Names of the sub-directories, of the other entries, and of the regular
    files of a listing. *)
Definition dirnames (es : list (string * node)) : list string :=
  map fst (filter (fun e => match snd e with Dir _ => true | _ => false end) es).

Definition nondirnames (es : list (string * node)) : list string :=
  map fst (filter (fun e => match snd e with Dir _ => false | _ => true end) es).

Definition regular_names (es : list (string * node)) : list string :=
  map fst (filter (fun e => match snd e with File => true | _ => false end) es).

(** [os.walk(top)], top-down: one triple [(root, dirnames, filenames)] per
    directory; [filenames] holds every entry that is not a directory. *)
Fixpoint os_walk (top : string) (n : node) : list walk_item :=
  match n with
  | Dir es =>
      (top, dirnames es, nondirnames es)
      :: (fix sub (l : list (string * node)) : list walk_item :=
            match l with
            | [] => []
            | (nm, c) :: l' => os_walk (os_path_join top nm) c ++ sub l'
            end) es
  | _ => []
  end.

(** ** Log records

    A record keeps the level, the text of the message with [{}] at each
    interpolated expression, and the interpolated values. *)

Inductive level := DEBUG | INFO | WARNING | ERROR.

Record log_record := mkLog {
  log_level : level;
  log_msg : string;
  log_args : list value }.

Definition is_warning_or_error (r : log_record) : bool :=
  match log_level r with
  | WARNING | ERROR => true
  | _ => false
  end.

(** ** Pages

    The PDF codec is an external collaborator.  A page is modelled by what
    the program touches: its media box, its [/Rotate] entry in degrees and
    the transformation applied to its content, a PDF matrix [a b c d e f]
    sending [(x, y)] to [(a x + c y + e, b x + d y + f)].  [rotate] adds to
    [/Rotate]; [scale] composes with the content transformation and scales
    the media box with it.  The page object has no [translate_x] and no
    [translate_y]: looking either up raises [AttributeError]. *)

Record matrix := mkMatrix { ma : Q; mb : Q; mc : Q; md : Q; me : Q; mf : Q }.

Record rect := mkRect { r_left : Q; r_bottom : Q; r_right : Q; r_top : Q }.

Record page := mkPage {
  page_contents : string;
  mediabox : rect;
  rotation : Z;
  ctm : matrix }.

Definition identity_matrix : matrix := mkMatrix 1 0 0 1 0 0.

Definition mat_apply (m : matrix) (pt : Q * Q) : Q * Q :=
  let (x, y) := pt in
  (ma m * x + mc m * y + me m, mb m * x + md m * y + mf m)%Q.

(** [mat_then m t]: first [m], then [t]. *)
Definition mat_then (m t : matrix) : matrix :=
  mkMatrix (ma t * ma m + mc t * mb m) (mb t * ma m + md t * mb m)
           (ma t * mc m + mc t * md m) (mb t * mc m + md t * md m)
           (ma t * me m + mc t * mf m + me t)
           (mb t * me m + md t * mf m + mf t)%Q.

Definition rect_width (r : rect) : Q := (r_right r - r_left r)%Q.
Definition rect_height (r : rect) : Q := (r_top r - r_bottom r)%Q.

Definition add_transformation (t : matrix) (p : page) : page :=
  mkPage (page_contents p) (mediabox p) (rotation p) (mat_then (ctm p) t).

(** [page.rotate(angle)] *)
Definition page_rotate (angle : Z) (p : page) : page :=
  mkPage (page_contents p) (mediabox p) (rotation p + angle)%Z (ctm p).

(** [box.scale(sx, sy)]: every coordinate is multiplied by its factor. *)
Definition rect_scale (sx sy : Q) (r : rect) : rect :=
  mkRect (r_left r * sx) (r_bottom r * sy) (r_right r * sx) (r_top r * sy)%Q.

(** [page.scale(sx, sy)]: the content is scaled, and so is the media box. *)
Definition page_scale (sx sy : Q) (p : page) : page :=
  let p := add_transformation (mkMatrix sx 0 0 sy 0 0) p in
  mkPage (page_contents p) (rect_scale sx sy (mediabox p)) (rotation p) (ctm p).

(** [page.translate_x] and [page.translate_y], the attribute being looked
    up before the argument of the call is evaluated.  The page object of
    the codec has neither, so the lookup raises. *)
Definition page_translate_x (p : page) : result (Q -> page) :=
  Raise (mkExn AttributeError "'PageObject' object has no attribute 'translate_x'").

Definition page_translate_y (p : page) : result (Q -> page) :=
  Raise (mkExn AttributeError "'PageObject' object has no attribute 'translate_y'").

(** The orientation a viewer shows: [/Rotate] modulo a full turn. *)
Definition orientation (p : page) : Z := (rotation p mod 360)%Z.

(** ** The world and the monad

    The converter object ([self]), the file system, standard input and
    output, and the log are the state; a computation returns a value or
    raises, and leaves a state in both cases. *)

Inductive stdin_event :=
| Line (s : string)
| Interrupt.

Record converter := mkConverter {
  config_path : string;
  output_path : string;
  writer : list page }.

Record world := mkWorld {
  w_self : converter;
  w_fs : filesystem;
  w_stdin : list stdin_event;
  w_stdout : list string;
  w_log : list log_record }.

Definition M (A : Type) : Type := world -> result A * world.

Definition ret {A} (a : A) : M A := fun w => (Return a, w).

Definition raise {A} (e : exn) : M A := fun w => (Raise e, w).

Definition bind {A B} (m : M A) (k : A -> M B) : M B :=
  fun w =>
    match m w with
    | (Return a, w') => k a w'
    | (Raise e, w') => (Raise e, w')
    end.

Notation "x <- m ;; k" := (bind m (fun x => k))
  (at level 61, m at next level, right associativity).
Notation "m ;; k" := (bind m (fun _ => k))
  (at level 61, right associativity).

Definition lift {A} (r : result A) : M A := fun w => (r, w).

Definition get_fs : M filesystem := fun w => (Return (w_fs w), w).

Definition set_fs (fs : filesystem) : M unit :=
  fun w => (Return tt, mkWorld (w_self w) fs (w_stdin w) (w_stdout w) (w_log w)).

Definition get_self : M converter := fun w => (Return (w_self w), w).

Definition set_self (c : converter) : M unit :=
  fun w => (Return tt, mkWorld c (w_fs w) (w_stdin w) (w_stdout w) (w_log w)).

Definition set_stdin (evs : list stdin_event) : M unit :=
  fun w => (Return tt, mkWorld (w_self w) (w_fs w) evs (w_stdout w) (w_log w)).

Definition print (s : string) : M unit :=
  fun w => (Return tt,
            mkWorld (w_self w) (w_fs w) (w_stdin w) (w_stdout w ++ [s]) (w_log w)).

Definition logger (lvl : level) (msg : string) (args : list value) : M unit :=
  fun w => (Return tt,
            mkWorld (w_self w) (w_fs w) (w_stdin w) (w_stdout w)
                    (w_log w ++ [mkLog lvl msg args])).

(** [if c: m] with no [else]. *)
Definition when (c : bool) (m : M unit) : M unit := if c then m else ret tt.

(** A [for] loop that updates a local variable. *)
Fixpoint foldM {A B} (body : B -> A -> M B) (l : list A) (acc : B) : M B :=
  match l with
  | [] => ret acc
  | x :: l' => acc' <- body acc x ;; foldM body l' acc'
  end.

(** A [for] loop run for its effects. *)
Fixpoint for_each {A} (l : list A) (body : A -> M unit) : M unit :=
  match l with
  | [] => ret tt
  | x :: l' => body x ;; for_each l' body
  end.

(** [try: body / except <classes> as e: handler e] *)
Definition try_except {A} (body : M A) (catches : exn -> bool) (handler : exn -> M A) : M A :=
  fun w =>
    match body w with
    | (Return a, w') => (Return a, w')
    | (Raise e, w') => if catches e then handler e w' else (Raise e, w')
    end.

(** [truthy l] for a list: [if l:]. *)
Definition nonempty {A} (l : list A) : bool :=
  match l with [] => false | _ => true end.

(** ** Collaborators

    The JSON reader, the image codec and the PDF codec are used through
    their outcomes: each call returns or raises. *)

Record image := mkImage { image_name : string; image_mode : string }.

Record collaborators := mkCollaborators {
  (** [open(path, 'r')] followed by [json.load] *)
  json_load : string -> result value;
  (** [pypdf.PdfReader(path)], as the pages it holds *)
  PdfReader : string -> result (list page);
  (** [Image.open(path)] *)
  Image_open : string -> result image;
  (** [img.convert(mode)] *)
  Image_convert : image -> string -> result image;
  (** [img.save(path, 'PDF')]; the file exists once it returns *)
  Image_save : image -> string -> result unit;
  (** [open(path, 'wb')] *)
  open_wb : string -> result unit;
  (** [writer.write(output_file)] *)
  writer_write : list page -> result unit }.

(** ** PDFConverter *)

Record file_info := mkFileInfo {
  fi_path : string;
  fi_options : list value }.

Definition newline : string := String (ascii_of_nat 10) EmptyString.

(** [parent / f"{stem}_{counter}{suffix}"] of [get_next_available_filename]. *)
Definition numbered_name (filepath : string) (counter : nat) : string :=
  let path := Path.of_string filepath in
  Path.to_string
    (Path.child (Path.parent path)
       (Path.stem path +++ "_" +++ Text.decimal counter +++ Path.suffix path)).

(** The [while True] search of [get_next_available_filename].  A table of
    [n] existing paths holds at most [n] of the numbered names, so [n]
    rounds are enough: the name returned after them is free as well (see
    [first_available_free]). *)
Fixpoint first_available (fs : filesystem) (filepath : string) (rounds counter : nat) : string :=
  match rounds with
  | O => numbered_name filepath counter
  | S rounds' =>
      if negb (fs_exists fs (numbered_name filepath counter))
      then numbered_name filepath counter
      else first_available fs filepath rounds' (S counter)
  end.

Section PDFConverter.

Variable E : collaborators.

Definition get_next_available_filename (filepath : string) : M string :=
  fs <- get_fs ;;
  ret (first_available fs filepath (List.length fs) 1).

(** One round of the prompt of [handle_existing_file] per line of
    standard input; [input] raises [EOFError] when the input is used up. *)
Fixpoint handle_existing_file_loop (events : list stdin_event) : M (option string) :=
  self <- get_self ;;
  print (newline +++ "Output file already exists. Choose an option:") ;;
  print "1. Overwrite existing file" ;;
  suggested_name <- get_next_available_filename (output_path self) ;;
  print ("2. Use alternative filename: " +++ suggested_name) ;;
  print "3. Stop processing" ;;
  print "Enter your choice (1/2/3): " ;;
  match events with
  | [] => raise (mkExn EOFError "EOF when reading a line")
  | ev :: rest =>
      set_stdin rest ;;
      answered <-
        try_except
          (line <- lift (match ev with
                         | Line s => Return s
                         | Interrupt => Raise (mkExn KeyboardInterrupt "")
                         end) ;;
           let choice := Text.strip line in
           if String.eqb choice "1" then
             logger INFO "User chose to overwrite existing file" [] ;;
             ret (Some (Some (output_path self)))
           else if String.eqb choice "2" then
             logger INFO "User chose to use alternative filename: {}" [VStr suggested_name] ;;
             ret (Some (Some suggested_name))
           else if String.eqb choice "3" then
             logger INFO "User chose to stop processing" [] ;;
             ret (Some None)
           else
             print "Invalid choice. Please enter 1, 2, or 3." ;;
             ret None)
          (is_class KeyboardInterrupt)
          (fun _ =>
             logger INFO "User interrupted the process" [] ;;
             ret (Some None)) ;;
      match answered with
      | Some final => ret final
      | None => handle_existing_file_loop rest
      end
  end.

Definition handle_existing_file : M (option string) :=
  self <- get_self ;;
  fs <- get_fs ;;
  if negb (fs_exists fs (Path.to_string (Path.of_string (output_path self)))) then
    ret (Some (output_path self))
  else
    logger WARNING "Output file already exists: {}" [VStr (output_path self)] ;;
    fun w => handle_existing_file_loop (w_stdin w) w.

Definition load_config : M value :=
  self <- get_self ;;
  try_except
    (config <- lift (json_load E (config_path self)) ;;
     match config with
     | VDict d =>
         if dict_has "files" d then
           logger INFO "Successfully loaded configuration from {}" [VStr (config_path self)] ;;
           ret config
         else raise (mkExn ValueError "Config must be a dictionary with 'files' key")
     | _ => raise (mkExn ValueError "Config must be a dictionary with 'files' key")
     end)
    (fun e => is_class JSONDecodeError e || is_class FileNotFoundError e)
    (fun e =>
       if is_class JSONDecodeError e then
         logger ERROR "Error decoding JSON config: {}" [VStr (exn_str e)] ;;
         raise e
       else
         logger ERROR "Configuration file not found: {}" [VStr (config_path self)] ;;
         raise e).

(** [Path(v)]: a [TypeError] on anything but a string. *)
Definition Path_of_value (v : value) : M Path.t :=
  match v with
  | VStr s => ret (Path.of_string s)
  | _ => raise (mkExn TypeError "expected str, bytes or os.PathLike object")
  end.

(** The recursive branch: the triples of [os.walk] sorted, the file names
    of each sorted, each name joined to its root. *)
Definition walk_files (top : string) (n : node) : list string :=
  flat_map
    (fun it =>
       map (fun filename => Path.to_string (Path.child (Path.of_string (walk_root it)) filename))
           (sorted_str (walk_filenames it)))
    (sorted_by walk_item_lt (os_walk top n)).

(** The non-recursive branch: [sorted(str(f) for f in path.glob('*') if f.is_file())]. *)
Definition glob_files (path : Path.t) (es : list (string * node)) : list string :=
  sorted_str (map (fun nm => Path.to_string (Path.child path nm)) (regular_names es)).

Definition get_files_from_path (path : value) (recursive : bool) : M (list string) :=
  path <- Path_of_value path ;;
  fs <- get_fs ;;
  match fs_lookup fs (Path.to_string path) with
  | None =>
      logger WARNING "Path does not exist: {}" [VStr (Path.to_string path)] ;;
      ret []
  | Some File =>
      logger DEBUG "Single file path: {}" [VStr (Path.to_string path)] ;;
      ret [Path.to_string path]
  | Some (Dir es) =>
      logger INFO "Processing directory: {} {}"
             [VStr (Path.to_string path);
              VStr (if recursive then "recursively" else "non-recursively")] ;;
      if recursive then
        let files := walk_files (Path.to_string path) (Dir es) in
        logger DEBUG "Found {} files recursively in {}"
               [VInt (Z.of_nat (List.length files)); VStr (Path.to_string path)] ;;
        ret files
      else
        let files := glob_files path es in
        logger DEBUG "Found {} files in directory {}"
               [VInt (Z.of_nat (List.length files)); VStr (Path.to_string path)] ;;
        ret files
  | Some Special => ret []
  end.

(** [for file in files: result.append({'path': file, 'options': options.copy()})] *)
Definition append_files (result : list file_info) (files : list string)
           (options : list value) : list file_info :=
  result ++ map (fun file => mkFileInfo file options) files.

(** Expanding one path and appending its files, as both branches of
    [process_files_array] do. *)
Definition add_path (options : list value) (recursive : bool)
           (result : list file_info) (path : value) : M (list file_info) :=
  files <- get_files_from_path path recursive ;;
  ret (append_files result files options).

(** The body of [for item in files_array]. *)
Definition process_item (inherited_options : list value)
           (result : list file_info) (item : value) : M (list file_info) :=
  match item with
  | VStr _ =>
      logger INFO "Processing path entry: {}" [item] ;;
      add_path inherited_options false result item
  | VDict d =>
      let current_options := inherited_options in
      current_options <-
        match dict_get "options" d with
        | Some item_options =>
            opts <- lift (py_iter item_options) ;;
            let new_options :=
              filter (fun opt => negb (py_in opt current_options)) opts in
            when (nonempty new_options)
                 (logger INFO "Adding new options: {}" [VList new_options]) ;;
            ret (current_options ++ new_options)
        | None => ret current_options
        end ;;
      let is_recursive := py_in (VStr "recursive") current_options in
      logger INFO "Processing dictionary entry with options: {}" [VList current_options] ;;
      match dict_get "files" d with
      | Some item_files =>
          sorted_paths <- lift (py_sorted item_files) ;;
          logger DEBUG "Processing files in order: {}" [VList sorted_paths] ;;
          foldM (add_path current_options is_recursive) sorted_paths result
      | None => ret result
      end
  | _ => ret result
  end.

(** [inherited_options or []] *)
Definition or_empty (inherited_options : option (list value)) : list value :=
  match inherited_options with
  | Some (o :: os) => o :: os
  | _ => []
  end.

Definition process_files_array (files_array : value)
           (inherited_options : option (list value)) : M (list file_info) :=
  let inherited_options := or_empty inherited_options in
  when (nonempty inherited_options)
       (logger INFO "Processing with inherited options: {}" [VList inherited_options]) ;;
  items <- lift (py_iter files_array) ;;
  foldM (process_item inherited_options) items [].

Definition apply_option (pg : page) (opt : value) : M page :=
  if py_eq opt (VStr "rotate90") then
    logger DEBUG "Rotating page 90 degrees counter-clockwise" [] ;;
    ret (page_rotate 90 pg)
  else if py_eq opt (VStr "rotate180") then
    logger DEBUG "Rotating page 180 degrees" [] ;;
    ret (page_rotate 180 pg)
  else if py_eq opt (VStr "rotate270") then
    logger DEBUG "Rotating page 270 degrees counter-clockwise" [] ;;
    ret (page_rotate 270 pg)
  else if py_eq opt (VStr "flipV") then
    logger DEBUG "Flipping page vertically" [] ;;
    let pg := page_scale 1 (-1) pg in
    translate_y <- lift (page_translate_y pg) ;;
    ret (translate_y (rect_height (mediabox pg)))
  else if py_eq opt (VStr "flipH") then
    logger DEBUG "Flipping page horizontally" [] ;;
    let pg := page_scale (-1) 1 pg in
    translate_x <- lift (page_translate_x pg) ;;
    ret (translate_x (rect_width (mediabox pg)))
  else if py_eq opt (VStr "recursive") then
    ret pg
  else
    logger WARNING "Unknown transformation option: {}" [opt] ;;
    ret pg.

Definition apply_transformations (pg : page) (options : list value) : M page :=
  if negb (nonempty options) then ret pg
  else
    logger INFO "Applying transformations: {}" [VList options] ;;
    foldM apply_option options pg.

Definition image_extensions : list string :=
  [".png"; ".jpg"; ".jpeg"; ".tiff"; ".bmp"].

(** [os.remove(path)] *)
Definition os_remove (path : string) : M unit :=
  fs <- get_fs ;;
  match fs_lookup fs path with
  | None => raise (mkExn FileNotFoundError "No such file or directory")
  | Some (Dir _) => raise (mkExn OSError "Is a directory")
  | Some _ => set_fs (fs_remove fs path)
  end.

(** [img.save(pdf_path, 'PDF')]: the file is there when the call returns. *)
Definition img_save (img : image) (pdf_path : string) : M unit :=
  lift (Image_save E img pdf_path) ;;
  fs <- get_fs ;;
  set_fs (fs_create fs pdf_path).

(** [None] is the [None] the method returns for an unsupported type. *)
Definition convert_to_pdf (file_path : string) : M (option (list page)) :=
  let file_path := Path.of_string file_path in
  if String.eqb (Text.lower (Path.suffix file_path)) ".pdf" then
    logger DEBUG "Processing PDF file directly: {}" [VStr (Path.to_string file_path)] ;;
    reader <- lift (PdfReader E (Path.to_string file_path)) ;;
    ret (Some reader)
  else if existsb (String.eqb (Text.lower (Path.suffix file_path))) image_extensions then
    logger INFO "Converting image to PDF: {}" [VStr (Path.to_string file_path)] ;;
    img <- lift (Image_open E (Path.to_string file_path)) ;;
    img <- (if String.eqb (image_mode img) "RGBA" then
              logger DEBUG "Converting RGBA image to RGB" [] ;;
              lift (Image_convert E img "RGB")
            else ret img) ;;
    let pdf_path := Path.to_string (Path.with_suffix file_path ".temp.pdf") in
    img_save img pdf_path ;;
    reader <- lift (PdfReader E pdf_path) ;;
    os_remove pdf_path ;;
    ret (Some reader)
  else
    logger WARNING "Unsupported file type: {}" [VStr (Path.to_string file_path)] ;;
    ret None.

Definition set_output_path (p : string) : M unit :=
  self <- get_self ;;
  set_self (mkConverter (config_path self) p (writer self)).

(** [self.writer.add_page(page)] *)
Definition writer_add_page (p : page) : M unit :=
  self <- get_self ;;
  set_self (mkConverter (config_path self) (output_path self) (writer self ++ [p])).

(** [config['files']] *)
Definition getitem (v : value) (k : string) : M value :=
  match v with
  | VDict d =>
      match dict_get k d with
      | Some x => ret x
      | None => raise (mkExn KeyError k)
      end
  | _ => raise (mkExn TypeError "object is not subscriptable")
  end.

(** The body of [for file_info in files_with_options].  A reader object is
    truthy, so [if pdf_reader:] separates a reader from [None]. *)
Definition process_file (info : file_info) : M unit :=
  let path := fi_path info in
  let options := fi_options info in
  logger INFO "Processing file: {}" [VStr path] ;;
  when (nonempty options) (logger INFO "  With options: {}" [VList options]) ;;
  pdf_reader <- convert_to_pdf path ;;
  match pdf_reader with
  | Some reader_pages =>
      logger DEBUG "Successfully loaded PDF with {} pages"
             [VInt (Z.of_nat (List.length reader_pages))] ;;
      for_each (combine (seq 1 (List.length reader_pages)) reader_pages)
        (fun numbered =>
           logger DEBUG "Processing page {}" [VInt (Z.of_nat (fst numbered))] ;;
           transformed_page <- apply_transformations (snd numbered) options ;;
           writer_add_page transformed_page)
  | None => logger ERROR "Failed to convert file: {}" [VStr path]
  end.

(** The body of the [try] in [process]. *)
Definition process_body : M bool :=
  final_output_path <- handle_existing_file ;;
  match final_output_path with
  | None =>
      logger INFO "Processing stopped due to output file handling" [] ;;
      ret false
  | Some final_output_path =>
      set_output_path final_output_path ;;
      config <- load_config ;;
      files <- getitem config "files" ;;
      files_with_options <- process_files_array files None ;;
      logger INFO "Processing {} files in total"
             [VInt (Z.of_nat (List.length files_with_options))] ;;
      for_each files_with_options process_file ;;
      self <- get_self ;;
      logger INFO "Writing final PDF to: {}" [VStr (output_path self)] ;;
      lift (open_wb E (output_path self)) ;;
      fs <- get_fs ;;
      set_fs (fs_create fs (Path.to_string (Path.of_string (output_path self)))) ;;
      lift (writer_write E (writer self)) ;;
      logger INFO "PDF creation completed successfully" [] ;;
      ret true
  end.

(** [except Exception as e] around the whole body. *)
Definition process : M bool :=
  try_except process_body is_Exception
    (fun e =>
       logger ERROR "Error during processing: {}" [VStr (exn_str e)] ;;
       ret false).

End PDFConverter.

(** * Notions used in the statements *)

Definition append_log (w : world) (l : list log_record) : world :=
  mkWorld (w_self w) (w_fs w) (w_stdin w) (w_stdout w) (w_log w ++ l).

(** A world that holds nothing but a file system. *)
Definition blank (fs : filesystem) : world :=
  mkWorld (mkConverter "" "" []) fs [] [] [].

Definition value_in {A} (fs : filesystem) (m : M A) : result A := fst (m (blank fs)).
Definition log_in {A} (fs : filesystem) (m : M A) : list log_record := w_log (snd (m (blank fs))).

(** An observer reads the file system and appends to the log, and does
    nothing else: its outcome and the records it writes are determined by
    the file system. *)
Definition observer {A} (m : M A) : Prop :=
  forall w, m w = (value_in (w_fs w) m, append_log w (log_in (w_fs w) m)).

(** A computation is contained when whatever it raises is an [Exception]. *)
Definition contained {A} (m : M A) : Prop :=
  forall w e w', m w = (Raise e, w') -> is_Exception e = true.

(** The order on strings. *)
Definition str_le (s t : string) : Prop := String.leb s t = true.

(** Directories are compared by their path. *)
Definition root_le (a b : walk_item) : Prop := str_le (walk_root a) (walk_root b).

(** [str(Path(s))] *)
Definition normal (s : string) : string := Path.to_string (Path.of_string s).

(** The file name [nm] of the directory [root], as the recursive branch
    prints it. *)
Definition under (root nm : string) : string :=
  Path.to_string (Path.child (Path.of_string root) nm).

Definition example_tree : node :=
  Dir [("b.txt", File); ("a", Dir [("x.txt", File)])].

Definition example_world : world := blank [("d", example_tree)].

(** The quarter turns an option adds to [/Rotate]. *)
Definition turn (opt : value) : Z :=
  if py_eq opt (VStr "rotate90") then 90
  else if py_eq opt (VStr "rotate180") then 180
  else if py_eq opt (VStr "rotate270") then 270
  else 0.

Definition total_turn (options : list value) : Z :=
  fold_right (fun opt acc => (turn opt + acc)%Z) 0%Z options.

(** What [get_files_from_path] returns for the path [p] in a file system. *)
Definition listing (fs : filesystem) (p : string) (recursive : bool) : list string :=
  match value_in fs (get_files_from_path (VStr p) recursive) with
  | Return files => files
  | Raise _ => []
  end.

(** The entries the inner loop appends for a list of paths. *)
Definition entries_for (fs : filesystem) (options : list value) (recursive : bool)
           (paths : list string) : list file_info :=
  flat_map (fun p => map (fun file => mkFileInfo file options) (listing fs p recursive))
           paths.

(** The options an entry object hands to its files: the inherited ones
    followed by those of its own that are new; iterating the [options]
    field may raise. *)
Definition entry_options (inherited : list value) (d : list (string * value))
  : result (list value) :=
  match dict_get "options" d with
  | Some item_options =>
      match py_iter item_options with
      | Return opts =>
          Return (inherited ++ filter (fun opt => negb (py_in opt inherited)) opts)
      | Raise e => Raise e
      end
  | None => Return inherited
  end.

Definition current_options_of (inherited : list value) (d : list (string * value)) : list value :=
  match entry_options inherited d with
  | Return current_options => current_options
  | Raise _ => inherited
  end.

(** The options of an entry object are absent or something a [for] loop
    can run over. *)
Definition options_iterable (d : list (string * value)) : bool :=
  match dict_get "options" d with
  | None | Some (VList _) | Some (VStr _) | Some (VDict _) => true
  | _ => false
  end.

(** In the words of the specification: [P] followed by the elements of [C]
    that are not in [P]. *)
Definition merge_options (P C : list string) : list string :=
  P ++ filter (fun c => negb (existsb (String.eqb c) P)) C.

Definition shifted (acc : list file_info) (r : result (list file_info))
  : result (list file_info) :=
  match r with
  | Return x => Return (acc ++ x)
  | Raise e => Raise e
  end.

(** How [process_files_array] starts: the optional record about the
    inherited options, then the loop. *)
Definition header (inherited_options : option (list value)) : list log_record :=
  if nonempty (or_empty inherited_options)
  then [mkLog INFO "Processing with inherited options: {}" [VList (or_empty inherited_options)]]
  else [].

Definition example_fs : filesystem :=
  [("d", example_tree); ("z.pdf", File); ("c.png", File)].

Definition example_entry : list (string * value) :=
  [("files", VList [VStr "z.pdf"; VStr "d"; VStr "c.png"]);
   ("options", VList [VStr "recursive"; VStr "flipH"])].

Definition raises_only_Exception {A} (r : result A) : Prop :=
  forall e, r = Raise e -> is_Exception e = true.

(** The collaborators fail by raising exceptions derived from [Exception]. *)
Record well_behaved (E : collaborators) : Prop := {
  wb_json_load : forall p, raises_only_Exception (json_load E p);
  wb_PdfReader : forall p, raises_only_Exception (PdfReader E p);
  wb_Image_open : forall p, raises_only_Exception (Image_open E p);
  wb_Image_convert : forall i m, raises_only_Exception (Image_convert E i m);
  wb_Image_save : forall i p, raises_only_Exception (Image_save E i p);
  wb_open_wb : forall p, raises_only_Exception (open_wb E p);
  wb_writer_write : forall ps, raises_only_Exception (writer_write E ps) }.

Definition example_codecs : collaborators :=
  mkCollaborators
    (fun _ => Return (VDict [("files", VList [VStr "notes.txt"])]))
    (fun _ => Raise (mkExn PdfReadError "EOF marker not found"))
    (fun p => Return (mkImage p "RGB"))
    (fun img _ => Return img)
    (fun _ _ => Return tt)
    (fun _ => Return tt)
    (fun _ => Return tt).

Definition example_run : world :=
  mkWorld (mkConverter "config.json" "out.pdf" []) [("notes.txt", File)] [] [] [].

(** Every run of [m] relates the world it starts in to the one it leaves. *)
Definition preserves (R : world -> world -> Prop) {A} (m : M A) : Prop :=
  forall w r w', m w = (r, w') -> R w w'.

(** The converter object and the file system are the same. *)
Definition same_self_fs (w w' : world) : Prop :=
  w_self w' = w_self w /\ w_fs w' = w_fs w.

(** The world after [self.output_path = p]. *)
Definition with_output_path (w : world) (p : string) : world :=
  mkWorld (mkConverter (config_path (w_self w)) p (writer (w_self w)))
          (w_fs w) (w_stdin w) (w_stdout w) (w_log w).

Definition nested_codecs : collaborators :=
  mkCollaborators
    (fun _ => Return (VDict [("files",
                              VList [VDict [("files",
                                             VList [VStr "a.pdf";
                                                    VDict [("files", VList [VStr "b.pdf"])]])]])]))
    (fun _ => Return [])
    (fun p => Return (mkImage p "RGB"))
    (fun img _ => Return img)
    (fun _ _ => Return tt)
    (fun _ => Return tt)
    (fun _ => Return tt).

(** The path of the intermediate PDF of an image. *)
Definition temp_pdf_path (file_path : string) : string :=
  Path.to_string (Path.with_suffix (Path.of_string file_path) ".temp.pdf").

Definition lowered_suffix (file_path : string) : string :=
  Text.lower (Path.suffix (Path.of_string file_path)).

Definition is_pdf (file_path : string) : bool :=
  String.eqb (lowered_suffix file_path) ".pdf".

Definition is_image (file_path : string) : bool :=
  existsb (String.eqb (lowered_suffix file_path)) image_extensions.

Definition unsupported (file_path : string) : bool :=
  negb (is_pdf file_path) && negb (is_image file_path).

(** What [convert_to_pdf] answers; it does not depend on the world. *)
Definition conversion (E : collaborators) (file_path : string) : result (option (list page)) :=
  fst (convert_to_pdf E file_path (blank [])).


(** The text in front of the last component of a printed path. *)
Fixpoint joined_prefix (pp : list string) : string :=
  match pp with
  | [] => ""
  | p :: pp' => p +++ "/" +++ joined_prefix pp'
  end.

(** A line typed at the prompt that is none of the three choices. *)
Definition invalid_line (s : string) : bool :=
  negb (String.eqb (Text.strip s) "1")
  && negb (String.eqb (Text.strip s) "2")
  && negb (String.eqb (Text.strip s) "3").

(** An event that ends the prompt: an interrupt or one of the choices. *)
Definition ends_prompt (ev : stdin_event) : bool :=
  match ev with
  | Line s => negb (invalid_line s)
  | Interrupt => true
  end.

(** What the prompt answers to such an event. *)
Definition answer (w : world) (ev : stdin_event) : option string :=
  match ev with
  | Interrupt => None
  | Line s =>
      if String.eqb (Text.strip s) "1" then Some (output_path (w_self w))
      else if String.eqb (Text.strip s) "2"
      then Some (first_available (w_fs w) (output_path (w_self w))
                                 (List.length (w_fs w)) 1)
      else None
  end.

(** [below top es root es']: the directory [root], with listing [es'], is
    the directory [top], with listing [es], or lies under it at any depth;
    the paths are joined as [os.walk] joins them. *)
Inductive below : string -> list (string * node) -> string -> list (string * node) -> Prop :=
| below_here top es : below top es top es
| below_child top es nm sub root es' :
    In (nm, Dir sub) es ->
    below (os_path_join top nm) sub root es' ->
    below top es root es'.

(** Induction over a directory tree. *)
Fixpoint node_induction (P : node -> Prop)
         (HFile : P File) (HSpecial : P Special)
         (HDir : forall es, Forall (fun e => P (snd e)) es -> P (Dir es))
         (n : node) : P n :=
  match n with
  | File => HFile
  | Special => HSpecial
  | Dir es =>
      HDir es
        ((fix entries (l : list (string * node)) : Forall (fun e => P (snd e)) l :=
            match l with
            | [] => Forall_nil _
            | e :: l' =>
                Forall_cons e (node_induction P HFile HSpecial HDir (snd e)) (entries l')
            end) es)
  end.

(** The options that change a page. *)
Definition is_transformation (opt : value) : bool :=
  py_eq opt (VStr "rotate90") || py_eq opt (VStr "rotate180")
  || py_eq opt (VStr "rotate270") || py_eq opt (VStr "flipV")
  || py_eq opt (VStr "flipH").

(** The page [apply_transformations] returns; the page as it is when the
    call raises. *)
Definition transformed (options : list value) (pg : page) : page :=
  match value_in [] (apply_transformations pg options) with
  | Return pg' => pg'
  | Raise _ => pg
  end.

(** The options that flip a page, and the lists that hold one. *)
Definition is_flip (opt : value) : bool :=
  py_eq opt (VStr "flipV") || py_eq opt (VStr "flipH").

Definition has_flip (options : list value) : bool := existsb is_flip options.

(** The file adds no page: its type is unsupported or its reader is empty. *)
Definition without_pages (E : collaborators) (info : file_info) : Prop :=
  conversion E (fi_path info) = Return None
  \/ conversion E (fi_path info) = Return (Some []).

(** The pages one resolved file adds to the writer. *)
Definition pages_of (E : collaborators) (info : file_info) : list page :=
  match conversion E (fi_path info) with
  | Return (Some reader_pages) => map (transformed (fi_options info)) reader_pages
  | _ => []
  end.

(** The run gets as far as a resolved list of files. *)
Definition resolves (E : collaborators) (w : world) : Prop :=
  exists final w1 cfg files infos,
    handle_existing_file w = (Return (Some final), w1)
    /\ json_load E (config_path (w_self w)) = Return (VDict cfg)
    /\ dict_get "files" cfg = Some files
    /\ value_in (w_fs w) (process_files_array files None) = Return infos.

Definition paged_codecs : collaborators :=
  mkCollaborators
    (fun _ => Return (VDict [("files",
                              VList [VDict [("files", VList [VStr "a.pdf"]);
                                            ("options", VList [VStr "rotate90"])]])]))
    (fun _ => Return [mkPage "page 1" (mkRect 0 0 612 792) 0 identity_matrix])
    (fun p => Return (mkImage p "RGB"))
    (fun img _ => Return img)
    (fun _ _ => Return tt)
    (fun _ => Return tt)
    (fun _ => Return tt).

Definition paged_run : world :=
  mkWorld (mkConverter "config.json" "out.pdf" []) [("a.pdf", File)] [] [] [].

(** Worlds and collaborators used as examples. *)
Definition flipped_codecs : collaborators :=
  mkCollaborators
    (fun _ => Return (VDict [("files",
                              VList [VDict [("files", VList [VStr "a.pdf"]);
                                            ("options", VList [VStr "flipH"; VStr "flipV"])]])]))
    (fun _ => Return [mkPage "page 1" (mkRect 0 0 612 792) 0 identity_matrix])
    (fun p => Return (mkImage p "RGB"))
    (fun img _ => Return img)
    (fun _ _ => Return tt)
    (fun _ => Return tt)
    (fun _ => Return tt).

Definition skipped_flip_codecs : collaborators :=
  mkCollaborators
    (fun _ => Return (VDict [("files",
                              VList [VDict [("files", VList [VStr "notes.txt"]);
                                            ("options", VList [VStr "flipH"])]])]))
    (fun _ => Return [mkPage "page 1" (mkRect 0 0 612 792) 0 identity_matrix])
    (fun p => Return (mkImage p "RGB"))
    (fun img _ => Return img)
    (fun _ _ => Return tt)
    (fun _ => Return tt)
    (fun _ => Return tt).



(** The record [load_config] writes for an exception of the JSON reader. *)
Definition load_error_records (w : world) (e : exn) : list log_record :=
  if is_class JSONDecodeError e
  then [mkLog ERROR "Error decoding JSON config: {}" [VStr (exn_str e)]]
  else if is_class FileNotFoundError e
  then [mkLog ERROR "Configuration file not found: {}" [VStr (config_path (w_self w))]]
  else [].

Definition list_config_codecs : collaborators :=
  mkCollaborators
    (fun _ => Return (VList [VStr "a.pdf"]))
    (fun _ => Return [])
    (fun p => Return (mkImage p "RGB"))
    (fun img _ => Return img)
    (fun _ _ => Return tt)
    (fun _ => Return tt)
    (fun _ => Return tt).

Definition unreadable_config_codecs : collaborators :=
  mkCollaborators
    (fun _ => Raise (mkExn OSError "Permission denied"))
    (fun _ => Return [])
    (fun p => Return (mkImage p "RGB"))
    (fun img _ => Return img)
    (fun _ _ => Return tt)
    (fun _ => Return tt)
    (fun _ => Return tt).

Definition mixed_directory : node :=
  Dir [("c.jpg", File); ("sub", Dir [("x.pdf", File)]); ("b.png", File);
       ("pipe", Special); ("a.pdf", File)].

(** Entries whose options start with the inherited ones. *)
Definition starts_with (inherited : list value) (info : file_info) : Prop :=
  exists tail, fi_options info = inherited ++ tail.

Definition letter_page : page :=
  mkPage "page 1" (mkRect 0 0 612 792) 0 identity_matrix.

Definition crowded_world : world :=
  blank [("scan.png", File); ("scan.temp.pdf", File)].

(** * Properties *)

(** ** Reasoning about computations *)

Lemma append_log_nil w : append_log w [] = w.
Proof. destruct w; unfold append_log; simpl; now rewrite app_nil_r. Qed.

Lemma append_log_app w l1 l2 :
  append_log (append_log w l1) l2 = append_log w (l1 ++ l2).
Proof. unfold append_log; simpl; now rewrite app_assoc. Qed.

Lemma append_log_fs w l : w_fs (append_log w l) = w_fs w.
Proof. reflexivity. Qed.

Ltac unfold_monad :=
  unfold bind, ret, raise, lift, logger, when, get_fs, set_fs, get_self,
    set_self, set_stdin, print, try_except in *.

Lemma observer_intro {A} (m : M A) (v : filesystem -> result A)
      (l : filesystem -> list log_record) :
  (forall w, m w = (v (w_fs w), append_log w (l (w_fs w)))) -> observer m.
Proof.
  intros H w. unfold value_in, log_in.
  rewrite (H (blank (w_fs w))), H. reflexivity.
Qed.

Lemma observer_ret {A} (a : A) : observer (ret a).
Proof.
  apply (observer_intro _ (fun _ => Return a) (fun _ => [])).
  intros w. unfold ret. now rewrite append_log_nil.
Qed.

Lemma observer_raise {A} (e : exn) : observer (@raise A e).
Proof.
  apply (observer_intro _ (fun _ => Raise e) (fun _ => [])).
  intros w. unfold raise. now rewrite append_log_nil.
Qed.

Lemma observer_lift {A} (r : result A) : observer (lift r).
Proof.
  apply (observer_intro _ (fun _ => r) (fun _ => [])).
  intros w. unfold lift. now rewrite append_log_nil.
Qed.

Lemma observer_logger lvl msg args : observer (logger lvl msg args).
Proof.
  apply (observer_intro _ (fun _ => Return tt) (fun _ => [mkLog lvl msg args])).
  reflexivity.
Qed.

Lemma observer_get_fs : observer get_fs.
Proof.
  apply (observer_intro _ (fun fs => Return fs) (fun _ => [])).
  intros w. unfold get_fs. now rewrite append_log_nil.
Qed.

Lemma observer_bind {A B} (m : M A) (k : A -> M B) :
  observer m -> (forall a, observer (k a)) -> observer (bind m k).
Proof.
  intros Hm Hk.
  apply (observer_intro _
           (fun fs => match value_in fs m with
                      | Return a => value_in fs (k a)
                      | Raise e => Raise e
                      end)
           (fun fs => match value_in fs m with
                      | Return a => log_in fs m ++ log_in fs (k a)
                      | Raise e => log_in fs m
                      end)).
  intros w. unfold bind. rewrite (Hm w).
  destruct (value_in (w_fs w) m) as [a|e]; [|reflexivity].
  rewrite (Hk a). rewrite append_log_fs, append_log_app. reflexivity.
Qed.

Lemma observer_when c m : observer m -> observer (when c m).
Proof. intros H. destruct c; simpl; [exact H | apply observer_ret]. Qed.

Lemma observer_foldM {A B} (body : B -> A -> M B) l :
  (forall acc x, observer (body acc x)) -> forall acc, observer (foldM body l acc).
Proof.
  intros Hb. induction l as [|x l IH]; intros acc; simpl.
  - apply observer_ret.
  - apply observer_bind; auto.
Qed.

Lemma value_in_bind {A B} fs (m : M A) (k : A -> M B) :
  observer m -> (forall a, observer (k a)) ->
  value_in fs (bind m k) =
  match value_in fs m with
  | Return a => value_in fs (k a)
  | Raise e => Raise e
  end.
Proof.
  intros Hm Hk. unfold value_in at 1. unfold bind.
  rewrite (Hm (blank fs)). simpl.
  destruct (value_in fs m) as [a|e]; [|reflexivity].
  rewrite (Hk a). reflexivity.
Qed.

Lemma log_in_bind {A B} fs (m : M A) (k : A -> M B) :
  observer m -> (forall a, observer (k a)) ->
  log_in fs (bind m k) =
  match value_in fs m with
  | Return a => log_in fs m ++ log_in fs (k a)
  | Raise e => log_in fs m
  end.
Proof.
  intros Hm Hk. unfold log_in at 1. unfold bind.
  rewrite (Hm (blank fs)). simpl.
  destruct (value_in fs m) as [a|e]; [|reflexivity].
  rewrite (Hk a). reflexivity.
Qed.

Lemma observer_value {A} (m : M A) w :
  observer m -> fst (m w) = value_in (w_fs w) m.
Proof. intros H. now rewrite (H w). Qed.

Lemma observer_fs {A} (m : M A) w :
  observer m -> w_fs (snd (m w)) = w_fs w.
Proof. intros H. now rewrite (H w). Qed.

Create HintDb observers.
#[local] Hint Resolve observer_ret observer_raise observer_lift observer_logger
  observer_get_fs observer_when : observers.

Ltac observe :=
  repeat first
    [ solve [auto with observers]
    | apply observer_bind; [| intros ?]
    | apply observer_foldM; intros ? ?
    | match goal with
      | |- observer (match ?x with _ => _ end) => destruct x
      | |- observer (if ?c then _ else _) => destruct c
      end ].

Lemma observer_Path_of_value v : observer (Path_of_value v).
Proof. destruct v; simpl; observe. Qed.
#[local] Hint Resolve observer_Path_of_value : observers.

Lemma observer_get_files_from_path v r : observer (get_files_from_path v r).
Proof.
  unfold get_files_from_path.
  apply observer_bind; [apply observer_Path_of_value | intros p].
  observe.
Qed.
#[local] Hint Resolve observer_get_files_from_path : observers.

Lemma observer_add_path options r result path : observer (add_path options r result path).
Proof. unfold add_path. observe. Qed.
#[local] Hint Resolve observer_add_path : observers.

Lemma observer_process_item inh result item : observer (process_item inh result item).
Proof.
  unfold process_item. destruct item; observe.
Qed.
#[local] Hint Resolve observer_process_item : observers.

Lemma observer_process_files_array files inh : observer (process_files_array files inh).
Proof.
  unfold process_files_array.
  observe.
Qed.

Lemma observer_apply_option pg opt : observer (apply_option pg opt).
Proof. unfold apply_option. observe. Qed.

Lemma observer_apply_transformations pg options : observer (apply_transformations pg options).
Proof.
  unfold apply_transformations. observe. apply observer_apply_option.
Qed.

(** ** What [sorted] returns *)

Section SortFacts.
Context {A : Type} (lt : A -> A -> bool) (le : A -> A -> Prop).
Hypothesis not_lt_le : forall x y, lt y x = false -> le x y.
Hypothesis lt_le : forall x y, lt y x = true -> le y x.

Lemma insert_by_perm x l : Permutation (x :: l) (insert_by lt x l).
Proof.
  induction l as [|y l IH]; simpl; [reflexivity|].
  destruct (lt y x); [|reflexivity].
  rewrite perm_swap. now apply perm_skip.
Qed.

Lemma sorted_by_perm l : Permutation l (sorted_by lt l).
Proof.
  induction l as [|x l IH]; simpl; [reflexivity|].
  rewrite <- insert_by_perm. now apply perm_skip.
Qed.

Lemma insert_by_HdRel y x l :
  le y x -> HdRel le y l -> HdRel le y (insert_by lt x l).
Proof.
  intros Hyx Hl. destruct l as [|z l]; simpl.
  - now constructor.
  - inversion Hl; subst. destruct (lt z x); now constructor.
Qed.

Lemma insert_by_Sorted x l : Sorted le l -> Sorted le (insert_by lt x l).
Proof.
  induction 1 as [|y l Hl IH Hd]; simpl.
  - repeat constructor.
  - destruct (lt y x) eqn:Hlt.
    + constructor; [exact IH|]. apply insert_by_HdRel; auto.
    + constructor; [now constructor|]. constructor. now apply not_lt_le.
Qed.

Lemma sorted_by_Sorted l : Sorted le (sorted_by lt l).
Proof.
  induction l as [|x l IH]; simpl; [constructor|].
  now apply insert_by_Sorted.
Qed.
End SortFacts.

Lemma str_le_refl s : str_le s s.
Proof.
  unfold str_le, String.leb.
  pose proof (String.compare_antisym s s) as H.
  destruct (String.compare s s); simpl in H; congruence.
Qed.

Lemma str_not_lt_le x y : String.ltb y x = false -> str_le x y.
Proof.
  unfold str_le, String.ltb, String.leb. rewrite (String.compare_antisym x y).
  destruct (String.compare y x); simpl; congruence.
Qed.

Lemma str_lt_le x y : String.ltb y x = true -> str_le y x.
Proof.
  unfold str_le, String.ltb, String.leb.
  destruct (String.compare y x); simpl; congruence.
Qed.

Lemma str_le_trans a b c : str_le a b -> str_le b c -> str_le a c.
Proof.
  unfold str_le, String.leb. revert b c.
  induction a as [|x a IH]; intros [|y b] [|z c]; simpl; try congruence.
  unfold Ascii.compare.
  destruct (N.compare_spec (N_of_ascii x) (N_of_ascii y)) as [Hxy|Hxy|Hxy];
    destruct (N.compare_spec (N_of_ascii y) (N_of_ascii z)) as [Hyz|Hyz|Hyz];
    destruct (N.compare_spec (N_of_ascii x) (N_of_ascii z)) as [Hxz|Hxz|Hxz];
    try congruence; try lia.
  apply IH.
Qed.

Lemma sorted_str_perm l : Permutation l (sorted_str l).
Proof. apply sorted_by_perm. Qed.

Lemma sorted_str_sorted l : StronglySorted str_le (sorted_str l).
Proof.
  apply Sorted_StronglySorted.
  - intros a b c. apply str_le_trans.
  - apply sorted_by_Sorted; [apply str_not_lt_le | apply str_lt_le].
Qed.

Lemma walk_not_lt_le x y : walk_item_lt y x = false -> root_le x y.
Proof.
  unfold walk_item_lt, root_le. destruct (String.eqb_spec (walk_root y) (walk_root x)) as [Heq|Hne]; simpl.
  - intros _. rewrite Heq. apply str_le_refl.
  - apply str_not_lt_le.
Qed.

Lemma walk_lt_le x y : walk_item_lt y x = true -> root_le y x.
Proof.
  unfold walk_item_lt, root_le. destruct (String.eqb_spec (walk_root y) (walk_root x)) as [Heq|Hne]; simpl.
  - intros _. rewrite Heq. apply str_le_refl.
  - apply str_lt_le.
Qed.

Lemma sorted_walk_sorted l : StronglySorted root_le (sorted_by walk_item_lt l).
Proof.
  apply Sorted_StronglySorted.
  - intros a b c. apply str_le_trans.
  - apply sorted_by_Sorted; [apply walk_not_lt_le | apply walk_lt_le].
Qed.

(** [sorted] on values. *)
Lemma py_insert_perm x l r : py_insert x l = Return r -> Permutation (x :: l) r.
Proof.
  revert r. induction l as [|y l IH]; simpl; intros r H.
  - injection H as <-. reflexivity.
  - destruct (py_lt y x) as [[|]|]; try discriminate.
    + destruct (py_insert x l) as [r'|]; try discriminate.
      injection H as <-. rewrite perm_swap. apply perm_skip. now apply IH.
    + injection H as <-. reflexivity.
Qed.

Lemma py_sorted_list_perm l r : py_sorted_list l = Return r -> Permutation l r.
Proof.
  revert r. induction l as [|x l IH]; simpl; intros r H.
  - injection H as <-. reflexivity.
  - destruct (py_sorted_list l) as [r'|]; try discriminate.
    apply py_insert_perm in H. rewrite <- H. apply perm_skip. now apply IH.
Qed.

Lemma py_insert_str x l :
  py_insert (VStr x) (map VStr l) = Return (map VStr (insert_by String.ltb x l)).
Proof.
  induction l as [|y l IH]; simpl; [reflexivity|].
  destruct (String.ltb y x); [|reflexivity].
  now rewrite IH.
Qed.

Lemma py_sorted_list_str l :
  py_sorted_list (map VStr l) = Return (map VStr (sorted_str l)).
Proof.
  induction l as [|x l IH]; simpl; [reflexivity|].
  rewrite IH. apply py_insert_str.
Qed.

(** ** Directory expansion *)

Lemma get_files_from_path_recursive w d es :
  fs_lookup (w_fs w) (normal d) = Some (Dir es) ->
  fst (get_files_from_path (VStr d) true w)
  = Return (walk_files (normal d) (Dir es)).
Proof.
  intros H. unfold get_files_from_path, normal in *. unfold_monad. simpl.
  rewrite H. reflexivity.
Qed.

(** C4.  Expanding an existing directory recursively returns, for the
    directories below it taken in the lexicographical order of their
    paths, the names of the files of each in lexicographical order, one
    directory after the other; the whole is not a sorted list of paths in
    general. *)
Theorem recursive_expansion_by_directory :
  (forall w d es,
      fs_lookup (w_fs w) (normal d) = Some (Dir es) ->
      exists visited : list walk_item,
        Permutation (os_walk (normal d) (Dir es)) visited
        /\ StronglySorted root_le visited
        /\ Forall (fun it =>
                     Permutation (walk_filenames it) (sorted_str (walk_filenames it))
                     /\ StronglySorted str_le (sorted_str (walk_filenames it)))
                  visited
        /\ fst (get_files_from_path (VStr d) true w)
           = Return (flat_map
                       (fun it => map (under (walk_root it))
                                      (sorted_str (walk_filenames it)))
                       visited))
  /\ (exists w d files,
         fst (get_files_from_path (VStr d) true w) = Return files
         /\ files <> sorted_str files).
Proof.
  split.
  - intros w d es H.
    exists (sorted_by walk_item_lt (os_walk (normal d) (Dir es))).
    split; [apply sorted_by_perm|].
    split; [apply sorted_walk_sorted|].
    split.
    + apply Forall_forall. intros it _.
      split; [apply sorted_str_perm | apply sorted_str_sorted].
    + now apply get_files_from_path_recursive.
  - exists example_world, "d", ["d/b.txt"; "d/a/x.txt"].
    split; [reflexivity | discriminate].
Qed.

Lemma recursive_expansion_by_directory_witness :
  exists visited : list walk_item,
    Permutation (os_walk "d" example_tree) visited
    /\ StronglySorted root_le visited
    /\ Forall (fun it =>
                 Permutation (walk_filenames it) (sorted_str (walk_filenames it))
                 /\ StronglySorted str_le (sorted_str (walk_filenames it)))
              visited
    /\ fst (get_files_from_path (VStr "d") true example_world)
       = Return (flat_map
                   (fun it => map (under (walk_root it))
                                  (sorted_str (walk_filenames it)))
                   visited).
Proof.
  exact (proj1 recursive_expansion_by_directory example_world "d"
               [("b.txt", File); ("a", Dir [("x.txt", File)])] eq_refl).
Defined.

(** The directories are ordered as path strings, which is not the order
    of a depth-first descent: ["d/a.bak"] comes before ["d/a/sub"]. *)
Example walk_order_is_by_path_string :
  fst (get_files_from_path (VStr "d") true
         (blank [("d", Dir [("a", Dir [("sub", Dir [("z", File)])]);
                            ("a.bak", Dir [("y", File)])])]))
  = Return ["d/a.bak/y"; "d/a/sub/z"].
Proof. reflexivity. Qed.

(** ** Page transformations *)

Lemma py_eq_VStr opt s : py_eq opt (VStr s) = true -> opt = VStr s.
Proof.
  destruct opt; simpl; try discriminate.
  intros H. apply String.eqb_eq in H. now subst.
Qed.

Lemma apply_option_rotation pg opt w :
  is_flip opt = false ->
  exists pg' w',
    apply_option pg opt w = (Return pg', w')
    /\ rotation pg' = (rotation pg + turn opt)%Z.
Proof.
  unfold is_flip, apply_option, turn. intros H.
  apply orb_false_iff in H. destruct H as [HV HH].
  destruct (py_eq opt (VStr "rotate90")).
  { eexists; eexists; split; [reflexivity|reflexivity]. }
  destruct (py_eq opt (VStr "rotate180")).
  { eexists; eexists; split; [reflexivity|reflexivity]. }
  destruct (py_eq opt (VStr "rotate270")).
  { eexists; eexists; split; [reflexivity|reflexivity]. }
  rewrite HV, HH.
  destruct (py_eq opt (VStr "recursive")).
  { eexists; eexists; split; [reflexivity|]. simpl. lia. }
  eexists; eexists; split; [reflexivity|]. simpl. lia.
Qed.

Lemma apply_option_flip pg opt w :
  is_flip opt = true ->
  exists e w',
    apply_option pg opt w = (Raise e, w') /\ exn_class_of e = AttributeError.
Proof.
  unfold is_flip. intros H. apply orb_true_iff in H.
  destruct H as [H|H]; apply py_eq_VStr in H; subst opt;
    eexists; eexists; split; reflexivity.
Qed.

Lemma foldM_apply_option_cases options : forall pg w,
  if has_flip options
  then exists e w',
      foldM apply_option options pg w = (Raise e, w')
      /\ exn_class_of e = AttributeError
  else exists pg' w',
      foldM apply_option options pg w = (Return pg', w')
      /\ rotation pg' = (rotation pg + total_turn options)%Z.
Proof.
  induction options as [|opt options IH]; intros pg w.
  - simpl. exists pg, w. split; [reflexivity | lia].
  - simpl has_flip. simpl foldM. simpl total_turn.
    destruct (is_flip opt) eqn:Hflip; simpl orb.
    + destruct (apply_option_flip pg opt w Hflip) as (e & w1 & H1 & He).
      exists e, w1. unfold bind. rewrite H1. split; [reflexivity | exact He].
    + destruct (apply_option_rotation pg opt w Hflip) as (pg1 & w1 & H1 & R1).
      specialize (IH pg1 w1). destruct (has_flip options).
      * destruct IH as (e & w2 & H2 & He). exists e, w2.
        unfold bind. rewrite H1, H2. split; [reflexivity | exact He].
      * destruct IH as (pg2 & w2 & H2 & R2). exists pg2, w2.
        unfold bind. rewrite H1, H2. split; [reflexivity | lia].
Qed.

Lemma apply_transformations_fold pg options w :
  apply_transformations pg options w =
  match options with
  | [] => (Return pg, w)
  | _ :: _ =>
      foldM apply_option options pg
            (append_log w [mkLog INFO "Applying transformations: {}" [VList options]])
  end.
Proof. destruct options; reflexivity. Qed.

Lemma apply_transformations_cases options pg w :
  if has_flip options
  then exists e w',
      apply_transformations pg options w = (Raise e, w')
      /\ exn_class_of e = AttributeError
  else exists pg' w',
      apply_transformations pg options w = (Return pg', w')
      /\ rotation pg' = (rotation pg + total_turn options)%Z.
Proof.
  rewrite apply_transformations_fold. destruct options as [|opt options].
  - simpl. exists pg, w. split; [reflexivity | lia].
  - apply foldM_apply_option_cases.
Qed.

(** C7.  Four [rotate90] in a row bring a page back to the orientation it
    had, its media box and content untouched; in general the orientation
    after a list of options is the former one plus the quarter turns of
    the list, modulo 360.  That holds for every list without a flip; a
    list that holds one returns no page at all. *)
Theorem rotate90_four_times_restores_orientation :
  (forall pg w,
      exists pg' w',
        apply_transformations pg
          [VStr "rotate90"; VStr "rotate90"; VStr "rotate90"; VStr "rotate90"] w
        = (Return pg', w')
        /\ orientation pg' = orientation pg
        /\ mediabox pg' = mediabox pg
        /\ ctm pg' = ctm pg
        /\ page_contents pg' = page_contents pg)
  /\ (forall options pg w,
         if has_flip options
         then exists e w',
             apply_transformations pg options w = (Raise e, w')
             /\ exn_class_of e = AttributeError
         else exists pg' w',
             apply_transformations pg options w = (Return pg', w')
             /\ orientation pg' = ((orientation pg + total_turn options) mod 360)%Z).
Proof.
  split.
  - intros pg w. eexists; eexists. split; [reflexivity|].
    repeat split. unfold orientation. simpl.
    replace (rotation pg + 90 + 90 + 90 + 90)%Z with (rotation pg + 1 * 360)%Z by lia.
    apply Z_mod_plus_full.
  - intros options pg w.
    pose proof (apply_transformations_cases options pg w) as H.
    destruct (has_flip options); [exact H|].
    destruct H as (pg' & w' & H & R).
    exists pg', w'. split; [exact H|].
    unfold orientation. rewrite R. now rewrite Zplus_mod_idemp_l.
Qed.

(** C8.  [flipH] followed by [flipV] returns no page.  [flipH] scales the
    page by [(-1, 1)], which turns the media box of width [W] into one of
    width [-W], and then looks up [translate_x], which the page object
    does not have: [AttributeError] is raised, [flipV] is never reached,
    and no point of the page is sent to [(W - x, H - y)].  Each flip alone
    raises in the same way, for every page. *)
Theorem flipH_then_flipV_raises_AttributeError : forall pg w,
  (exists e w',
      apply_transformations pg [VStr "flipH"; VStr "flipV"] w = (Raise e, w')
      /\ exn_class_of e = AttributeError
      /\ exn_str e = "'PageObject' object has no attribute 'translate_x'")
  /\ (exists e w',
         apply_transformations pg [VStr "flipH"] w = (Raise e, w')
         /\ exn_class_of e = AttributeError)
  /\ (exists e w',
         apply_transformations pg [VStr "flipV"] w = (Raise e, w')
         /\ exn_class_of e = AttributeError)
  /\ (rect_width (mediabox (page_scale (-1) 1 pg)) == - rect_width (mediabox pg))%Q.
Proof.
  intros pg w. repeat split; try (eexists; eexists; repeat split; reflexivity).
  unfold rect_width. simpl. ring.
Qed.

(** A run over one PDF of one page with the options [flipH] and [flipV]:
    it returns [False], logs the missing attribute, and writes nothing. *)
Example flipped_run_returns_False :
  fst (process flipped_codecs paged_run) = Return false
  /\ In (mkLog ERROR "Error during processing: {}"
                [VStr "'PageObject' object has no attribute 'translate_x'"])
        (w_log (snd (process flipped_codecs paged_run)))
  /\ w_fs (snd (process flipped_codecs paged_run)) = w_fs paged_run
  /\ writer (w_self (snd (process flipped_codecs paged_run))) = [].
Proof.
  split; [reflexivity|]. split; [|split; reflexivity].
  vm_compute. repeat (first [left; reflexivity | right]).
Qed.

(** ** Resolution of the configuration *)

Lemma get_files_from_path_returns fs p r :
  value_in fs (get_files_from_path (VStr p) r) = Return (listing fs p r).
Proof.
  unfold listing, value_in, get_files_from_path. unfold_monad. simpl.
  destruct (fs_lookup fs (Path.to_string (Path.of_string p))) as [[| |es]|];
    try reflexivity.
  destruct r; reflexivity.
Qed.

Lemma get_files_from_path_type_error fs v r :
  isinstance_str v = false ->
  exists e, value_in fs (get_files_from_path v r) = Raise e
            /\ exn_class_of e = TypeError.
Proof.
  intros H. destruct v; try discriminate; eexists; split; reflexivity.
Qed.

Lemma value_in_foldM_cons {A B} fs (body : B -> A -> M B) x l acc :
  (forall acc x, observer (body acc x)) ->
  value_in fs (foldM body (x :: l) acc) =
  match value_in fs (body acc x) with
  | Return acc' => value_in fs (foldM body l acc')
  | Raise e => Raise e
  end.
Proof.
  intros Hb. simpl. apply value_in_bind; [apply Hb|].
  intros a. now apply observer_foldM.
Qed.

Lemma value_in_add_path_str fs options r acc p :
  value_in fs (add_path options r acc (VStr p))
  = Return (append_files acc (listing fs p r) options).
Proof.
  unfold add_path. rewrite value_in_bind; auto with observers.
  now rewrite get_files_from_path_returns.
Qed.

Lemma add_paths_strings fs options r paths : forall acc,
  value_in fs (foldM (add_path options r) (map VStr paths) acc)
  = Return (acc ++ entries_for fs options r paths).
Proof.
  induction paths as [|p paths IH]; intros acc.
  - simpl. unfold value_in, ret. simpl. now rewrite app_nil_r.
  - simpl map. rewrite value_in_foldM_cons by auto with observers.
    rewrite value_in_add_path_str, IH. unfold append_files. simpl.
    now rewrite app_assoc.
Qed.

Lemma add_paths_type_error fs options r v l : forall acc,
  In v l -> isinstance_str v = false ->
  exists e, value_in fs (foldM (add_path options r) l acc) = Raise e
            /\ exn_class_of e = TypeError.
Proof.
  induction l as [|x l IH]; intros acc Hin Hv; [contradiction|].
  rewrite value_in_foldM_cons by auto with observers.
  destruct (isinstance_str x) eqn:Hx.
  - destruct x; try discriminate. rewrite value_in_add_path_str.
    destruct Hin as [Heq|Hin]; [subst v; discriminate|]. now apply IH.
  - unfold add_path. rewrite value_in_bind; auto with observers.
    destruct (get_files_from_path_type_error fs x r Hx) as (e & -> & He).
    now exists e.
Qed.

Lemma foldM_app {A B} (body : B -> A -> M B) l1 l2 : forall acc w,
  foldM body (l1 ++ l2) acc w = bind (foldM body l1 acc) (foldM body l2) w.
Proof.
  induction l1 as [|x l1 IH]; intros acc w; simpl.
  - reflexivity.
  - unfold bind. destruct (body acc x w) as [[acc'|e] w1]; [|reflexivity].
    rewrite IH. reflexivity.
Qed.

Lemma foldM_cons_run {A B} (body : B -> A -> M B) x l acc w :
  foldM body (x :: l) acc w =
  match body acc x w with
  | (Return acc', w') => foldM body l acc' w'
  | (Raise e, w') => (Raise e, w')
  end.
Proof. reflexivity. Qed.

Lemma py_in_str c P : py_in (VStr c) (map VStr P) = existsb (String.eqb c) P.
Proof.
  unfold py_in. induction P as [|p P IH]; simpl; [reflexivity|].
  f_equal. exact IH.
Qed.

Lemma filter_new_options_str P C :
  filter (fun opt => negb (py_in opt (map VStr P))) (map VStr C)
  = map VStr (filter (fun c => negb (existsb (String.eqb c) P)) C).
Proof.
  induction C as [|c C IH]; simpl; [reflexivity|].
  rewrite py_in_str. destruct (existsb (String.eqb c) P); simpl; now rewrite IH.
Qed.

Lemma or_empty_some l : or_empty (Some l) = l.
Proof. now destruct l. Qed.

Lemma current_options_of_str P C d :
  dict_get "options" d = Some (VList (map VStr C)) ->
  current_options_of (map VStr P) d = map VStr (merge_options P C).
Proof.
  intros H. unfold current_options_of, entry_options, merge_options. rewrite H. simpl.
  now rewrite filter_new_options_str, map_app.
Qed.

Lemma merge_options_NoDup P C : NoDup P -> NoDup C -> NoDup (merge_options P C).
Proof.
  intros HP HC. unfold merge_options. apply NoDup_app.
  - exact HP.
  - now apply NoDup_filter.
  - intros a HaP HaC. apply filter_In in HaC. destruct HaC as [_ Hf].
    apply negb_true_iff in Hf.
    assert (existsb (String.eqb a) P = true) as Hex.
    { apply existsb_exists. exists a. split; [exact HaP | apply String.eqb_refl]. }
    congruence.
Qed.

Lemma entry_options_iterable inh d :
  options_iterable d = true ->
  entry_options inh d = Return (current_options_of inh d).
Proof.
  unfold options_iterable, current_options_of, entry_options.
  destruct (dict_get "options" d) as [[| | | | |]|]; try discriminate; reflexivity.
Qed.

(** What the loop body does with an entry object. *)
Lemma value_in_process_item_dict fs inh acc d :
  value_in fs (process_item inh acc (VDict d)) =
  match entry_options inh d with
  | Return current_options =>
      match dict_get "files" d with
      | Some item_files =>
          match py_sorted item_files with
          | Return sorted_paths =>
              value_in fs
                (foldM (add_path current_options
                                 (py_in (VStr "recursive") current_options))
                       sorted_paths acc)
          | Raise e => Raise e
          end
      | None => Return acc
      end
  | Raise e => Raise e
  end.
Proof.
  unfold value_in at 1. unfold process_item, entry_options.
  destruct (dict_get "options" d) as [o|].
  - destruct (py_iter o) as [opts|e] eqn:Ho; [|reflexivity].
    unfold_monad. simpl.
    destruct (nonempty (filter (fun opt => negb (py_in opt inh)) opts)); simpl;
      (destruct (dict_get "files" d) as [item_files|]; [|reflexivity]);
      (destruct (py_sorted item_files) as [sp|e]; [|reflexivity]);
      now rewrite observer_value by observe.
  - unfold_monad. simpl.
    destruct (dict_get "files" d) as [item_files|]; [|reflexivity].
    destruct (py_sorted item_files) as [sp|e]; [|reflexivity].
    now rewrite observer_value by observe.
Qed.

Lemma value_in_process_item_str fs inh acc p :
  value_in fs (process_item inh acc (VStr p))
  = Return (append_files acc (listing fs p false) inh).
Proof.
  unfold process_item. rewrite value_in_bind; auto with observers.
  apply value_in_add_path_str.
Qed.

(** The records an entry object without [files] writes are all at level
    [INFO]. *)
Lemma log_in_process_item_without_files fs inh acc d :
  dict_get "files" d = None ->
  Forall (fun r => log_level r = INFO) (log_in fs (process_item inh acc (VDict d))).
Proof.
  intros Hf. unfold log_in, process_item. rewrite Hf.
  destruct (dict_get "options" d) as [o|].
  - destruct (py_iter o) as [opts|e] eqn:Ho; unfold_monad; simpl.
    + destruct (nonempty (filter (fun opt => negb (py_in opt inh)) opts)); simpl;
        repeat constructor.
    + constructor.
  - unfold_monad. simpl. repeat constructor.
Qed.

(** *** The result grows by appending *)

Lemma add_path_shift fs options r acc v :
  value_in fs (add_path options r acc v)
  = shifted acc (value_in fs (add_path options r [] v)).
Proof.
  destruct v; try reflexivity.
  now rewrite !value_in_add_path_str.
Qed.

Lemma foldM_shift fs (body : list file_info -> value -> M (list file_info)) :
  (forall acc x, observer (body acc x)) ->
  (forall acc x, value_in fs (body acc x) = shifted acc (value_in fs (body [] x))) ->
  forall l acc,
    value_in fs (foldM body l acc) = shifted acc (value_in fs (foldM body l [])).
Proof.
  intros Hobs Hshift. induction l as [|x l IH]; intros acc.
  - simpl. unfold value_in, ret. simpl. now rewrite app_nil_r.
  - rewrite !value_in_foldM_cons by exact Hobs.
    rewrite (Hshift acc x).
    destruct (value_in fs (body [] x)) as [r|e]; simpl; [|reflexivity].
    rewrite (IH (acc ++ r)), (IH r).
    destruct (value_in fs (foldM body l [])) as [t|e]; simpl; [|reflexivity].
    now rewrite app_assoc.
Qed.

Lemma process_item_shift fs inh acc item :
  value_in fs (process_item inh acc item)
  = shifted acc (value_in fs (process_item inh [] item)).
Proof.
  destruct item; try (unfold value_in; simpl; now rewrite app_nil_r).
  - now rewrite !value_in_process_item_str.
  - rewrite !value_in_process_item_dict.
    destruct (entry_options inh entries) as [cur|e]; [|reflexivity].
    destruct (dict_get "files" entries) as [item_files|].
    + destruct (py_sorted item_files) as [sp|e]; [|reflexivity].
      apply foldM_shift; auto with observers.
      intros; apply add_path_shift.
    + simpl. now rewrite app_nil_r.
Qed.

Lemma process_files_array_run items inh w :
  process_files_array (VList items) inh w
  = foldM (process_item (or_empty inh)) items [] (append_log w (header inh)).
Proof.
  unfold process_files_array, header. unfold_monad. simpl.
  destruct (nonempty (or_empty inh)); simpl; [reflexivity|].
  now rewrite append_log_nil.
Qed.

Lemma value_in_process_files_array fs items inh :
  value_in fs (process_files_array (VList items) inh)
  = value_in fs (foldM (process_item (or_empty inh)) items []).
Proof.
  unfold value_in at 1. rewrite process_files_array_run.
  now rewrite observer_value by observe.
Qed.

(** The entries of a list of items are those of its parts, one after the
    other. *)
Lemma process_files_array_app fs l1 l2 inh :
  value_in fs (process_files_array (VList (l1 ++ l2)) inh) =
  match value_in fs (process_files_array (VList l1) inh) with
  | Return r1 => shifted r1 (value_in fs (process_files_array (VList l2) inh))
  | Raise e => Raise e
  end.
Proof.
  rewrite !value_in_process_files_array.
  unfold value_in at 1. rewrite foldM_app. unfold bind.
  rewrite (observer_foldM (process_item (or_empty inh)) l1
                          (observer_process_item (or_empty inh)) [] (blank fs)).
  simpl.
  destruct (value_in fs (foldM (process_item (or_empty inh)) l1 [])) as [r1|e];
    [|reflexivity].
  rewrite observer_value by observe. simpl.
  apply foldM_shift; auto with observers.
  intros; apply process_item_shift.
Qed.

Lemma process_files_array_single fs item inh :
  value_in fs (process_files_array (VList [item]) inh)
  = value_in fs (process_item (or_empty inh) [] item).
Proof.
  rewrite value_in_process_files_array, value_in_foldM_cons by auto with observers.
  destruct (value_in fs (process_item (or_empty inh) [] item)); reflexivity.
Qed.

Lemma process_files_array_in_context fs pre item post inh r1 r r2 :
  value_in fs (process_files_array (VList pre) inh) = Return r1 ->
  value_in fs (process_files_array (VList [item]) inh) = Return r ->
  value_in fs (process_files_array (VList post) inh) = Return r2 ->
  value_in fs (process_files_array (VList (pre ++ item :: post)) inh)
  = Return (r1 ++ r ++ r2).
Proof.
  intros H1 H H2. change (item :: post) with ([item] ++ post).
  rewrite process_files_array_app, H1. cbv iota.
  rewrite process_files_array_app, H. cbv iota. rewrite H2. reflexivity.
Qed.

Lemma py_sorted_strings paths :
  py_sorted (VList (map VStr paths)) = Return (map VStr (sorted_str paths)).
Proof. unfold py_sorted. simpl. apply py_sorted_list_str. Qed.

(** An entry object with a list of path strings, alone in the array. *)
Lemma entry_with_paths_alone fs d paths inh :
  dict_get "files" d = Some (VList (map VStr paths)) ->
  options_iterable d = true ->
  value_in fs (process_files_array (VList [VDict d]) inh)
  = Return (entries_for fs (current_options_of (or_empty inh) d)
                        (py_in (VStr "recursive") (current_options_of (or_empty inh) d))
                        (sorted_str paths)).
Proof.
  intros Hf Hit.
  rewrite process_files_array_single, value_in_process_item_dict.
  rewrite (entry_options_iterable _ _ Hit), Hf, py_sorted_strings.
  now rewrite add_paths_strings.
Qed.

(** C5.  An entry object with a [files] list of path strings sorts that
    list as strings, expands every path of the sorted list with the
    recursion setting of the entry, and emits one entry per file returned,
    each with the merged options of the entry, at the place the entry has
    among the other items. *)
Theorem entry_files_sorted_then_expanded :
  forall d paths inh w pre post r_pre r_post,
    dict_get "files" d = Some (VList (map VStr paths)) ->
    options_iterable d = true ->
    fst (process_files_array (VList pre) inh w) = Return r_pre ->
    fst (process_files_array (VList post) inh w) = Return r_post ->
    let current_options := current_options_of (or_empty inh) d in
    let is_recursive := py_in (VStr "recursive") current_options in
    exists sorted_paths,
      Permutation paths sorted_paths
      /\ StronglySorted str_le sorted_paths
      /\ fst (process_files_array (VList (pre ++ VDict d :: post)) inh w)
         = Return (r_pre
                   ++ flat_map
                        (fun p => map (fun file => mkFileInfo file current_options)
                                      (listing (w_fs w) p is_recursive))
                        sorted_paths
                   ++ r_post).
Proof.
  intros d paths inh w pre post r_pre r_post Hf Hit Hpre Hpost cur rec.
  exists (sorted_str paths).
  split; [apply sorted_str_perm|]. split; [apply sorted_str_sorted|].
  rewrite observer_value in * by apply observer_process_files_array.
  apply process_files_array_in_context; auto.
  now apply entry_with_paths_alone.
Qed.

Lemma entry_files_sorted_then_expanded_witness :
  exists sorted_paths,
    Permutation ["z.pdf"; "d"; "c.png"] sorted_paths
    /\ StronglySorted str_le sorted_paths
    /\ fst (process_files_array
              (VList ([VStr "z.pdf"] ++ VDict example_entry :: [VStr "c.png"]))
              None (blank example_fs))
       = Return ([mkFileInfo "z.pdf" []]
                 ++ flat_map
                      (fun p => map (fun file =>
                                       mkFileInfo file
                                         (current_options_of (or_empty None) example_entry))
                                    (listing example_fs p
                                       (py_in (VStr "recursive")
                                          (current_options_of (or_empty None) example_entry))))
                      sorted_paths
                 ++ [mkFileInfo "c.png" []]).
Proof.
  exact (entry_files_sorted_then_expanded example_entry ["z.pdf"; "d"; "c.png"]
           None (blank example_fs) [VStr "z.pdf"] [VStr "c.png"]
           [mkFileInfo "z.pdf" []] [mkFileInfo "c.png" []]
           eq_refl eq_refl eq_refl eq_refl).
Defined.

(** C1, as the code has it.  The files of an entry object with options [C]
    under inherited options [P] all carry [P] followed by the elements of
    [C] that are not in [P], in the order [C] has them; that list is free
    of duplicates when [P] and [C] are; and [["a"; "b"]] with [["b"; "c"]]
    gives [["a"; "b"; "c"]]. *)
Theorem entry_options_are_merged :
  forall P C d paths w pre post r_pre r_post,
    dict_get "options" d = Some (VList (map VStr C)) ->
    dict_get "files" d = Some (VList (map VStr paths)) ->
    fst (process_files_array (VList pre) (Some (map VStr P)) w) = Return r_pre ->
    fst (process_files_array (VList post) (Some (map VStr P)) w) = Return r_post ->
    (exists files,
        fst (process_files_array (VList (pre ++ VDict d :: post)) (Some (map VStr P)) w)
        = Return (r_pre
                  ++ map (fun file => mkFileInfo file (map VStr (merge_options P C))) files
                  ++ r_post))
    /\ (NoDup P -> NoDup C -> NoDup (merge_options P C))
    /\ merge_options ["a"; "b"] ["b"; "c"] = ["a"; "b"; "c"].
Proof.
  intros P C d paths w pre post r_pre r_post Ho Hf Hpre Hpost.
  split; [|split; [apply merge_options_NoDup | reflexivity]].
  assert (options_iterable d = true) as Hit by (unfold options_iterable; now rewrite Ho).
  exists (flat_map (fun p => listing (w_fs w) p
                               (py_in (VStr "recursive") (map VStr (merge_options P C))))
                   (sorted_str paths)).
  rewrite observer_value in * by apply observer_process_files_array.
  apply process_files_array_in_context; auto.
  rewrite (entry_with_paths_alone _ _ _ _ Hf Hit).
  rewrite or_empty_some, (current_options_of_str P C d Ho).
  unfold entries_for. f_equal.
  induction (sorted_str paths) as [|p ps IH]; simpl; [reflexivity|].
  now rewrite map_app, IH.
Qed.

Lemma entry_options_are_merged_witness :
  (exists files,
      fst (process_files_array
             (VList ([] ++ VDict [("options", VList (map VStr ["b"; "c"]));
                                  ("files", VList (map VStr ["z.pdf"]))] :: []))
             (Some (map VStr ["a"; "b"])) (blank example_fs))
      = Return ([] ++ map (fun file =>
                             mkFileInfo file (map VStr (merge_options ["a"; "b"] ["b"; "c"])))
                          files ++ []))
  /\ (NoDup ["a"; "b"] -> NoDup ["b"; "c"] -> NoDup (merge_options ["a"; "b"] ["b"; "c"]))
  /\ merge_options ["a"; "b"] ["b"; "c"] = ["a"; "b"; "c"].
Proof.
  exact (entry_options_are_merged ["a"; "b"] ["b"; "c"]
           [("options", VList (map VStr ["b"; "c"])); ("files", VList (map VStr ["z.pdf"]))]
           ["z.pdf"] (blank example_fs) [] [] [] []
           eq_refl eq_refl eq_refl eq_refl).
Defined.

(** An entry object that lists an option twice hands both copies on. *)
Lemma duplicate_options_counterexample :
  fst (process_files_array
         (VList [VDict [("files", VList [VStr "z.pdf"]);
                        ("options", VList [VStr "flipH"; VStr "flipH"])]])
         None (blank example_fs))
  = Return [mkFileInfo "z.pdf" [VStr "flipH"; VStr "flipH"]]
  /\ ~ NoDup [VStr "flipH"; VStr "flipH"].
Proof.
  split; [reflexivity|].
  intros H. inversion H as [|x l Hnotin _]; subst. apply Hnotin. now left.
Qed.

(** C9.  An entry object without a [files] field adds no entry: alone it
    resolves to nothing, and among other items the result, the file system
    and the warnings and errors logged are those of the array without it. *)
Theorem entry_without_files_contributes_nothing :
  forall d inh w pre post,
    dict_get "files" d = None ->
    options_iterable d = true ->
    fst (process_files_array (VList [VDict d]) inh w) = Return []
    /\ fst (process_files_array (VList (pre ++ VDict d :: post)) inh w)
       = fst (process_files_array (VList (pre ++ post)) inh w)
    /\ filter is_warning_or_error
              (w_log (snd (process_files_array (VList (pre ++ VDict d :: post)) inh w)))
       = filter is_warning_or_error
                (w_log (snd (process_files_array (VList (pre ++ post)) inh w)))
    /\ w_fs (snd (process_files_array (VList (pre ++ VDict d :: post)) inh w)) = w_fs w.
Proof.
  intros d inh w pre post Hf Hit.
  assert (forall fs acc, value_in fs (process_item (or_empty inh) acc (VDict d)) = Return acc)
    as Hitem.
  { intros fs acc. rewrite value_in_process_item_dict.
    now rewrite (entry_options_iterable _ _ Hit), Hf. }
  split.
  { rewrite observer_value by apply observer_process_files_array.
    rewrite process_files_array_single. apply Hitem. }
  rewrite !process_files_array_run, !foldM_app. unfold bind.
  set (w0 := append_log w (header inh)).
  pose proof (observer_foldM (process_item (or_empty inh)) pre
                (observer_process_item (or_empty inh)) [] w0) as Hpre.
  rewrite Hpre.
  destruct (value_in (w_fs w0) (foldM (process_item (or_empty inh)) pre [])) as [acc|e].
  2:{ repeat split; reflexivity. }
  set (w1 := append_log w0 (log_in (w_fs w0) (foldM (process_item (or_empty inh)) pre []))).
  rewrite foldM_cons_run.
  rewrite (observer_process_item (or_empty inh) acc (VDict d) w1), Hitem.
  set (infos := log_in (w_fs w1) (process_item (or_empty inh) acc (VDict d))).
  assert (filter is_warning_or_error infos = []) as Hinfos.
  { pose proof (log_in_process_item_without_files (w_fs w1) (or_empty inh) acc d Hf) as Hall.
    fold infos in Hall. clearbody infos. induction Hall as [|r l Hr _ IH]; [reflexivity|].
    simpl. unfold is_warning_or_error. now rewrite Hr. }
  rewrite (observer_foldM (process_item (or_empty inh)) post
             (observer_process_item (or_empty inh)) acc (append_log w1 infos)).
  rewrite (observer_foldM (process_item (or_empty inh)) post
             (observer_process_item (or_empty inh)) acc w1).
  simpl. repeat split.
  rewrite !filter_app, Hinfos, app_nil_r. reflexivity.
Qed.

Lemma entry_without_files_contributes_nothing_witness :
  fst (process_files_array (VList [VDict [("options", VList [VStr "rotate90"])]])
         None (blank example_fs)) = Return []
  /\ fst (process_files_array
            (VList ([VStr "z.pdf"] ++ VDict [("options", VList [VStr "rotate90"])]
                               :: [VStr "missing"]))
            None (blank example_fs))
     = fst (process_files_array (VList ([VStr "z.pdf"] ++ [VStr "missing"]))
              None (blank example_fs))
  /\ filter is_warning_or_error
            (w_log (snd (process_files_array
                           (VList ([VStr "z.pdf"] ++ VDict [("options", VList [VStr "rotate90"])]
                                              :: [VStr "missing"]))
                           None (blank example_fs))))
     = filter is_warning_or_error
              (w_log (snd (process_files_array (VList ([VStr "z.pdf"] ++ [VStr "missing"]))
                             None (blank example_fs))))
  /\ w_fs (snd (process_files_array
                  (VList ([VStr "z.pdf"] ++ VDict [("options", VList [VStr "rotate90"])]
                                     :: [VStr "missing"]))
                  None (blank example_fs)))
     = w_fs (blank example_fs).
Proof.
  exact (entry_without_files_contributes_nothing
           [("options", VList [VStr "rotate90"])] None (blank example_fs)
           [VStr "z.pdf"] [VStr "missing"] eq_refl eq_refl).
Defined.

(** ** What the steps of [process] can raise *)

Lemma bind_Return {A B} (m : M A) (k : A -> M B) w a w' :
  m w = (Return a, w') -> bind m k w = k a w'.
Proof. intros H. unfold bind. now rewrite H. Qed.

Lemma bind_Raise {A B} (m : M A) (k : A -> M B) w e w' :
  m w = (Raise e, w') -> bind m k w = (Raise e, w').
Proof. intros H. unfold bind. now rewrite H. Qed.

Lemma contained_ret {A} (a : A) : contained (ret a).
Proof. intros w e w' H. discriminate. Qed.

Lemma contained_raise {A} e : is_Exception e = true -> contained (@raise A e).
Proof. intros He w e' w' H. unfold raise in H. now injection H as <- _. Qed.

Lemma contained_lift {A} (r : result A) : raises_only_Exception r -> contained (lift r).
Proof. intros Hr w e w' H. unfold lift in H. injection H as H _. now apply Hr. Qed.

Lemma contained_logger lvl msg args : contained (logger lvl msg args).
Proof. intros w e w' H. discriminate. Qed.

Lemma contained_print s : contained (print s).
Proof. intros w e w' H. discriminate. Qed.

Lemma contained_get_fs : contained get_fs.
Proof. intros w e w' H. discriminate. Qed.

Lemma contained_set_fs fs : contained (set_fs fs).
Proof. intros w e w' H. discriminate. Qed.

Lemma contained_get_self : contained get_self.
Proof. intros w e w' H. discriminate. Qed.

Lemma contained_set_self c : contained (set_self c).
Proof. intros w e w' H. discriminate. Qed.

Lemma contained_set_stdin evs : contained (set_stdin evs).
Proof. intros w e w' H. discriminate. Qed.

Lemma contained_bind {A B} (m : M A) (k : A -> M B) :
  contained m -> (forall a, contained (k a)) -> contained (bind m k).
Proof.
  intros Hm Hk w e w' H. unfold bind in H.
  destruct (m w) as [[a|e1] w1] eqn:Hmw.
  - eapply Hk; eauto.
  - injection H as <- _. eapply Hm; eauto.
Qed.

Lemma contained_when c m : contained m -> contained (when c m).
Proof. intros H. destruct c; simpl; [exact H | apply contained_ret]. Qed.

Lemma contained_foldM {A B} (body : B -> A -> M B) l :
  (forall acc x, contained (body acc x)) -> forall acc, contained (foldM body l acc).
Proof.
  intros Hb. induction l as [|x l IH]; intros acc; simpl.
  - apply contained_ret.
  - apply contained_bind; auto.
Qed.

Lemma contained_for_each {A} (body : A -> M unit) l :
  (forall x, contained (body x)) -> contained (for_each l body).
Proof.
  intros Hb. induction l as [|x l IH]; simpl.
  - apply contained_ret.
  - apply contained_bind; auto.
Qed.

Lemma contained_try_except {A} (body : M A) catches handler :
  (forall w e w', body w = (Raise e, w') -> catches e = false -> is_Exception e = true) ->
  (forall e, catches e = true -> contained (handler e)) ->
  contained (try_except body catches handler).
Proof.
  intros Hb Hh w e w' H. unfold try_except in H.
  destruct (body w) as [[a|e1] w1] eqn:Hbw; [discriminate|].
  destruct (catches e1) eqn:Hc.
  - eapply Hh; eauto.
  - injection H as <- _. eapply Hb; eauto.
Qed.

Create HintDb containment.
#[local] Hint Resolve contained_ret contained_logger contained_print contained_get_fs
  contained_set_fs contained_get_self contained_set_self contained_set_stdin
  contained_when : containment.

Ltac contain :=
  repeat first
    [ solve [auto with containment]
    | apply contained_raise; reflexivity
    | apply contained_bind; [| intros ?]
    | apply contained_foldM; intros ? ?
    | apply contained_for_each; intros ?
    | match goal with
      | |- contained (match ?x with _ => _ end) => destruct x
      | |- contained (if ?c then _ else _) => destruct c
      end ].

Lemma py_iter_raises v : raises_only_Exception (py_iter v).
Proof. intros e H. destruct v; try discriminate; now injection H as <-. Qed.

Lemma py_insert_raises x l : raises_only_Exception (py_insert x l).
Proof.
  induction l as [|y l IH]; intros e H; simpl in H; [discriminate|].
  destruct (py_lt y x) as [[|]|].
  - destruct (py_insert x l) as [r|e1]; [discriminate|].
    injection H as <-. now apply IH.
  - discriminate.
  - now injection H as <-.
Qed.

Lemma py_sorted_list_raises l : raises_only_Exception (py_sorted_list l).
Proof.
  induction l as [|x l IH]; intros e H; simpl in H; [discriminate|].
  destruct (py_sorted_list l) as [r|e1].
  - now apply (py_insert_raises x r).
  - injection H as <-. now apply IH.
Qed.

Lemma py_sorted_raises v : raises_only_Exception (py_sorted v).
Proof.
  intros e H. unfold py_sorted in H. destruct (py_iter v) as [l|e1] eqn:Hv.
  - now apply (py_sorted_list_raises l).
  - injection H as <-. now apply (py_iter_raises v).
Qed.

Lemma contained_get_files_from_path v r : contained (get_files_from_path v r).
Proof. unfold get_files_from_path, Path_of_value. destruct v; contain. Qed.
#[local] Hint Resolve contained_get_files_from_path : containment.

Lemma contained_process_item inh acc item : contained (process_item inh acc item).
Proof.
  unfold process_item, add_path. destruct item; contain;
    solve [ apply contained_lift; apply py_iter_raises
          | apply contained_lift; apply py_sorted_raises ].
Qed.
#[local] Hint Resolve contained_process_item : containment.

Lemma contained_process_files_array files inh : contained (process_files_array files inh).
Proof.
  unfold process_files_array. contain. apply contained_lift, py_iter_raises.
Qed.

Lemma contained_apply_transformations pg options : contained (apply_transformations pg options).
Proof. unfold apply_transformations, apply_option. contain. Qed.
#[local] Hint Resolve contained_apply_transformations : containment.

Lemma contained_get_next_available_filename p : contained (get_next_available_filename p).
Proof. unfold get_next_available_filename. contain. Qed.
#[local] Hint Resolve contained_get_next_available_filename : containment.

Lemma contained_handle_existing_file_loop events : contained (handle_existing_file_loop events).
Proof.
  induction events as [|ev rest IH]; simpl.
  - contain.
  - repeat (apply contained_bind; [solve [auto with containment] | intros ?]).
    apply contained_bind.
    + apply contained_try_except.
      * intros w e w' H Hc. unfold_monad. destruct ev as [s|].
        -- destruct (String.eqb (Text.strip s) "1"); [discriminate|].
           destruct (String.eqb (Text.strip s) "2"); [discriminate|].
           destruct (String.eqb (Text.strip s) "3"); discriminate.
        -- injection H as <- _. discriminate.
      * intros e _. contain.
    + intros [final|]; [contain | exact IH].
Qed.

Lemma contained_handle_existing_file : contained handle_existing_file.
Proof.
  unfold handle_existing_file. contain.
  intros w. apply contained_handle_existing_file_loop.
Qed.

Section Containment.
Variable E : collaborators.
Hypothesis HE : well_behaved E.

Lemma contained_load_config : contained (load_config E).
Proof.
  unfold load_config. apply contained_bind; [auto with containment | intros self].
  apply contained_try_except.
  - intros w e w' H _. revert w e w' H.
    change (contained
              (config <- lift (json_load E (config_path self)) ;;
               match config with
               | VDict d =>
                   if dict_has "files" d
                   then logger INFO "Successfully loaded configuration from {}"
                               [VStr (config_path self)] ;; ret config
                   else raise (mkExn ValueError "Config must be a dictionary with 'files' key")
               | _ => raise (mkExn ValueError "Config must be a dictionary with 'files' key")
               end)).
    apply contained_bind; [apply contained_lift, HE | intros config].
    contain.
  - intros e Hc.
    assert (is_Exception e = true) as He.
    { unfold is_class, is_Exception in *. destruct (exn_class_of e); try reflexivity; discriminate. }
    destruct (is_class JSONDecodeError e);
      (apply contained_bind; [auto with containment | intros _; now apply contained_raise]).
Qed.

Lemma contained_convert_to_pdf p : contained (convert_to_pdf E p).
Proof.
  unfold convert_to_pdf, img_save, os_remove.
  contain; apply contained_lift; apply HE.
Qed.

Lemma contained_process_file info : contained (process_file E info).
Proof.
  unfold process_file, writer_add_page.
  apply contained_bind; [auto with containment | intros _].
  apply contained_bind; [auto with containment | intros _].
  apply contained_bind; [apply contained_convert_to_pdf | intros r].
  contain.
Qed.

Lemma contained_process_body : contained (process_body E).
Proof.
  unfold process_body, set_output_path, getitem.
  apply contained_bind; [apply contained_handle_existing_file | intros final].
  destruct final as [final|]; [|contain].
  apply contained_bind; [contain | intros _].
  apply contained_bind; [apply contained_load_config | intros config].
  apply contained_bind; [contain | intros files].
  apply contained_bind; [apply contained_process_files_array | intros fwo].
  apply contained_bind; [contain | intros _].
  apply contained_bind;
    [apply contained_for_each; intros; apply contained_process_file | intros _].
  contain; apply contained_lift; apply HE.
Qed.
End Containment.

(** The two ways [process] ends: with what the body returns, or with
    [False] and an ERROR record when the body raises. *)
Lemma process_cases E w :
  well_behaved E ->
  (exists b w', process_body E w = (Return b, w') /\ process E w = (Return b, w'))
  \/ (exists e w1,
         process_body E w = (Raise e, w1)
         /\ is_Exception e = true
         /\ process E w
            = (Return false,
               append_log w1 [mkLog ERROR "Error during processing: {}"
                                    [VStr (exn_str e)]])).
Proof.
  intros HE. unfold process, try_except.
  destruct (process_body E w) as [[b|e] w1] eqn:Hbody.
  - left. now exists b, w1.
  - right. exists e, w1.
    pose proof (contained_process_body E HE w e w1 Hbody) as He.
    rewrite He. repeat split.
Qed.

(** C6.  With collaborators that fail by raising exceptions derived from
    [Exception], [process] returns a boolean on every input: whatever the
    body of the [try] raises is caught, answered with [False] and logged
    at level ERROR with the text of the exception. *)
Theorem process_returns_a_boolean :
  forall E w,
    well_behaved E ->
    exists b w',
      process E w = (Return b, w')
      /\ (forall e w1,
             process_body E w = (Raise e, w1) ->
             b = false
             /\ w' = append_log w1 [mkLog ERROR "Error during processing: {}"
                                          [VStr (exn_str e)]])
      /\ (forall b0 w1,
             process_body E w = (Return b0, w1) -> b = b0 /\ w' = w1).
Proof.
  intros E w HE.
  destruct (process_cases E w HE) as [(b & w' & Hbody & Hp)|(e & w1 & Hbody & He & Hp)].
  - exists b, w'. split; [exact Hp|]. split.
    + intros e1 w2 H. rewrite Hbody in H. discriminate.
    + intros b0 w2 H. rewrite Hbody in H. now injection H as <- <-.
  - eexists; eexists. split; [exact Hp|]. split.
    + intros e1 w2 H. rewrite Hbody in H. injection H as <- <-. split; reflexivity.
    + intros b0 w2 H. rewrite Hbody in H. discriminate.
Qed.

Lemma example_codecs_well_behaved : well_behaved example_codecs.
Proof.
  constructor; intros; intros e H; try discriminate.
  injection H as <-. reflexivity.
Qed.

Lemma process_returns_a_boolean_witness :
  exists b w',
    process example_codecs example_run = (Return b, w')
    /\ (forall e w1,
           process_body example_codecs example_run = (Raise e, w1) ->
           b = false
           /\ w' = append_log w1 [mkLog ERROR "Error during processing: {}"
                                        [VStr (exn_str e)]])
    /\ (forall b0 w1,
           process_body example_codecs example_run = (Return b0, w1) -> b = b0 /\ w' = w1).
Proof.
  exact (process_returns_a_boolean example_codecs example_run example_codecs_well_behaved).
Defined.

(** ** What the prompt leaves alone *)

Section Preservation.
Variable R : world -> world -> Prop.
Hypothesis R_refl : forall w, R w w.
Hypothesis R_trans : forall a b c, R a b -> R b c -> R a c.

Lemma preserves_ret {A} (a : A) : preserves R (ret a).
Proof. intros w r w' H. injection H as _ <-. apply R_refl. Qed.

Lemma preserves_raise {A} e : preserves R (@raise A e).
Proof. intros w r w' H. injection H as _ <-. apply R_refl. Qed.

Lemma preserves_lift {A} (x : result A) : preserves R (lift x).
Proof. intros w r w' H. injection H as _ <-. apply R_refl. Qed.

Lemma preserves_bind {A B} (m : M A) (k : A -> M B) :
  preserves R m -> (forall a, preserves R (k a)) -> preserves R (bind m k).
Proof.
  intros Hm Hk w r w' H. unfold bind in H.
  destruct (m w) as [[a|e] w1] eqn:Hmw.
  - eapply R_trans; [eapply Hm | eapply Hk]; eauto.
  - injection H as _ <-. eapply Hm; eauto.
Qed.

Lemma preserves_try_except {A} (body : M A) catches handler :
  preserves R body -> (forall e, preserves R (handler e)) ->
  preserves R (try_except body catches handler).
Proof.
  intros Hb Hh w r w' H. unfold try_except in H.
  destruct (body w) as [[a|e] w1] eqn:Hbw.
  - injection H as _ <-. eapply Hb; eauto.
  - destruct (catches e).
    + eapply R_trans; [eapply Hb | eapply Hh]; eauto.
    + injection H as _ <-. eapply Hb; eauto.
Qed.
End Preservation.

Lemma same_self_fs_refl w : same_self_fs w w.
Proof. split; reflexivity. Qed.

Lemma same_self_fs_trans a b c : same_self_fs a b -> same_self_fs b c -> same_self_fs a c.
Proof. intros [H1 H2] [H3 H4]. split; congruence. Qed.

Ltac keep :=
  repeat first
    [ apply (preserves_ret _ same_self_fs_refl)
    | apply (preserves_raise _ same_self_fs_refl)
    | apply (preserves_lift _ same_self_fs_refl)
    | solve [intros w r w' H; injection H as _ <-; split; reflexivity]
    | apply (preserves_bind _ same_self_fs_trans); [| intros ?]
    | apply (preserves_try_except _ same_self_fs_trans); [| intros ?]
    | match goal with
      | |- preserves _ (match ?x with _ => _ end) => destruct x
      | |- preserves _ (if ?c then _ else _) => destruct c
      end ].

Lemma handle_existing_file_loop_keeps events :
  preserves same_self_fs (handle_existing_file_loop events).
Proof.
  induction events as [|ev rest IH]; simpl; unfold get_next_available_filename.
  - keep.
  - repeat (apply (preserves_bind _ same_self_fs_trans); [solve [keep] | intros ?]).
    match goal with
    | |- preserves _ (match ?x with _ => _ end) => destruct x
    end; [keep | exact IH].
Qed.

Lemma handle_existing_file_keeps : preserves same_self_fs handle_existing_file.
Proof.
  unfold handle_existing_file. keep.
  intros w r w' H. eapply handle_existing_file_loop_keeps; eauto.
Qed.

(** ** A non-string element inside an entry's [files] *)

Lemma entry_with_non_string_raises fs inh acc d inner v :
  dict_get "files" d = Some (VList inner) ->
  In v inner -> isinstance_str v = false ->
  exists e, value_in fs (process_item inh acc (VDict d)) = Raise e.
Proof.
  intros Hf Hin Hv. rewrite value_in_process_item_dict, Hf.
  destruct (entry_options inh d) as [cur|e]; [|now exists e].
  unfold py_sorted. simpl.
  destruct (py_sorted_list inner) as [sp|e] eqn:Hs; [|now exists e].
  apply py_sorted_list_perm in Hs.
  destruct (add_paths_type_error fs cur (py_in (VStr "recursive") cur) v sp acc)
    as (e & He & _); auto.
  - eapply Permutation_in; eauto.
  - now exists e.
Qed.

Lemma process_files_array_non_string_raises fs items inh d inner v :
  In (VDict d) items ->
  dict_get "files" d = Some (VList inner) ->
  In v inner -> isinstance_str v = false ->
  exists e, value_in fs (process_files_array (VList items) inh) = Raise e.
Proof.
  intros Hd Hf Hin Hv. apply in_split in Hd. destruct Hd as (l1 & l2 & ->).
  rewrite process_files_array_app.
  destruct (value_in fs (process_files_array (VList l1) inh)) as [r1|e]; [|now exists e].
  change (VDict d :: l2) with ([VDict d] ++ l2).
  rewrite process_files_array_app, process_files_array_single.
  destruct (entry_with_non_string_raises fs (or_empty inh) [] d inner v Hf Hin Hv) as [e ->].
  now exists e.
Qed.

Lemma set_output_path_run p w :
  set_output_path p w = (Return tt, with_output_path w p).
Proof. reflexivity. Qed.

Lemma load_config_run E w cfg :
  json_load E (config_path (w_self w)) = Return (VDict cfg) ->
  dict_has "files" cfg = true ->
  load_config E w
  = (Return (VDict cfg),
     append_log w [mkLog INFO "Successfully loaded configuration from {}"
                         [VStr (config_path (w_self w))]]).
Proof.
  intros Hj Hf. unfold load_config. unfold_monad. simpl. rewrite Hj, Hf. reflexivity.
Qed.

(** C10.  When the configuration loads and some entry object of its
    [files] array has a [files] list with an element that is not a string,
    [process] returns [False]: sorting or expanding that list raises a
    [TypeError], which only the handler of [process] catches. *)
Theorem non_string_inner_element_fails_the_run :
  forall E w cfg items d inner v,
    json_load E (config_path (w_self w)) = Return (VDict cfg) ->
    dict_get "files" cfg = Some (VList items) ->
    In (VDict d) items ->
    dict_get "files" d = Some (VList inner) ->
    In v inner ->
    isinstance_str v = false ->
    fst (process E w) = Return false.
Proof.
  intros E w cfg items d inner v Hj Hcfg Hd Hf Hin Hv.
  unfold process, try_except, process_body.
  destruct (handle_existing_file w) as [[[final|]|e] w1] eqn:Hh.
  - destruct (handle_existing_file_keeps w _ _ Hh) as [Hself Hfs].
    rewrite (bind_Return _ _ _ _ _ Hh).
    rewrite (bind_Return _ _ _ _ _ (set_output_path_run final w1)).
    assert (json_load E (config_path (w_self (with_output_path w1 final)))
            = Return (VDict cfg)) as Hj' by (simpl; now rewrite Hself).
    assert (dict_has "files" cfg = true) as Hhas by (unfold dict_has; now rewrite Hcfg).
    rewrite (bind_Return _ _ _ _ _ (load_config_run E _ cfg Hj' Hhas)).
    set (w2 := append_log (with_output_path w1 final) _).
    assert (getitem (VDict cfg) "files" w2 = (Return (VList items), w2)) as Hget
        by (unfold getitem; now rewrite Hcfg).
    rewrite (bind_Return _ _ _ _ _ Hget).
    destruct (process_files_array_non_string_raises (w_fs w2) items None d inner v
                Hd Hf Hin Hv) as [e He].
    pose proof (observer_process_files_array (VList items) None w2) as Hrun.
    rewrite He in Hrun.
    rewrite (bind_Raise _ _ _ _ _ Hrun).
    rewrite (contained_process_files_array _ _ _ _ _ Hrun). reflexivity.
  - rewrite (bind_Return _ _ _ _ _ Hh). reflexivity.
  - rewrite (bind_Raise _ _ _ _ _ Hh).
    rewrite (contained_handle_existing_file w e w1 Hh). reflexivity.
Qed.

Lemma non_string_inner_element_fails_the_run_witness :
  fst (process nested_codecs example_run) = Return false.
Proof.
  exact (non_string_inner_element_fails_the_run nested_codecs example_run
           [("files", VList [VDict [("files",
                                     VList [VStr "a.pdf";
                                            VDict [("files", VList [VStr "b.pdf"])]])]])]
           [VDict [("files", VList [VStr "a.pdf"; VDict [("files", VList [VStr "b.pdf"])]])]]
           [("files", VList [VStr "a.pdf"; VDict [("files", VList [VStr "b.pdf"])]])]
           [VStr "a.pdf"; VDict [("files", VList [VStr "b.pdf"])]]
           (VDict [("files", VList [VStr "b.pdf"])])
           eq_refl eq_refl (or_introl eq_refl) eq_refl (or_intror (or_introl eq_refl))
           eq_refl).
Defined.

(** ** Conversion of one file *)

Lemma fs_lookup_create fs p : fs_lookup (fs_create fs p) p = Some File.
Proof. unfold fs_create. simpl. now rewrite String.eqb_refl. Qed.

Lemma fs_lookup_remove fs p : fs_lookup (fs_remove fs p) p = None.
Proof.
  unfold fs_remove. induction fs as [|[k n] fs IH]; simpl; [reflexivity|].
  destruct (String.eqb p k) eqn:Hk; simpl; [exact IH|]. now rewrite Hk.
Qed.

Lemma convert_to_pdf_value E p w : fst (convert_to_pdf E p w) = conversion E p.
Proof.
  unfold conversion, convert_to_pdf, img_save, os_remove.
  destruct (String.eqb (Text.lower (Path.suffix (Path.of_string p))) ".pdf").
  { unfold_monad. simpl. destruct (PdfReader E _); reflexivity. }
  destruct (existsb _ image_extensions); [|reflexivity].
  unfold_monad. simpl.
  destruct (Image_open E _) as [img|e]; [|reflexivity].
  destruct (String.eqb (image_mode img) "RGBA").
  - simpl. destruct (Image_convert E img "RGB") as [img'|e]; [|reflexivity].
    destruct (Image_save E img' _); [|reflexivity].
    destruct (PdfReader E _); [|reflexivity].
    simpl. rewrite ?fs_lookup_create, ?String.eqb_refl. reflexivity.
  - destruct (Image_save E img _); [|reflexivity].
    destruct (PdfReader E _); [|reflexivity].
    simpl. rewrite ?fs_lookup_create, ?String.eqb_refl. reflexivity.
Qed.

Lemma conversion_unsupported E p : unsupported p = true -> conversion E p = Return None.
Proof.
  unfold unsupported, is_pdf, is_image, lowered_suffix, conversion, convert_to_pdf.
  intros H. apply andb_true_iff in H. destruct H as [H1 H2].
  apply negb_true_iff in H1, H2. rewrite H1, H2. reflexivity.
Qed.

(** When [convert_to_pdf] returns for an image, the intermediate file is
    gone. *)
Lemma convert_to_pdf_removes_temp_on_return E p w r w' :
  is_pdf p = false -> is_image p = true ->
  convert_to_pdf E p w = (Return r, w') ->
  fs_lookup (w_fs w') (temp_pdf_path p) = None.
Proof.
  unfold is_pdf, is_image, lowered_suffix, temp_pdf_path, convert_to_pdf, img_save, os_remove.
  intros H1 H2. rewrite H1, H2. unfold_monad. simpl.
  destruct (Image_open E _) as [img|e]; [|discriminate].
  destruct (String.eqb (image_mode img) "RGBA").
  - simpl. destruct (Image_convert E img "RGB") as [img'|e]; [|discriminate].
    destruct (Image_save E img' _); [|discriminate].
    destruct (PdfReader E _); [|discriminate].
    simpl. rewrite ?fs_lookup_create, ?String.eqb_refl. intros H. injection H as _ <-. simpl.
    apply fs_lookup_remove.
  - destruct (Image_save E img _); [|discriminate].
    destruct (PdfReader E _); [|discriminate].
    simpl. rewrite ?fs_lookup_create, ?String.eqb_refl. intros H. injection H as _ <-. simpl.
    apply fs_lookup_remove.
Qed.

(** When reading the intermediate file back raises, the file stays. *)
Lemma convert_to_pdf_keeps_temp_on_read_failure E p w img e :
  is_pdf p = false -> is_image p = true ->
  Image_open E (normal p) = Return img ->
  String.eqb (image_mode img) "RGBA" = false ->
  Image_save E img (temp_pdf_path p) = Return tt ->
  PdfReader E (temp_pdf_path p) = Raise e ->
  fst (convert_to_pdf E p w) = Raise e
  /\ fs_lookup (w_fs (snd (convert_to_pdf E p w))) (temp_pdf_path p) = Some File.
Proof.
  unfold is_pdf, is_image, lowered_suffix, temp_pdf_path, normal, convert_to_pdf,
    img_save, os_remove.
  intros H1 H2 Ho Hm Hs Hr. rewrite H1, H2. unfold_monad. simpl.
  rewrite Ho, Hm, Hs, Hr. simpl. split; [reflexivity | apply fs_lookup_create].
Qed.

(** C2 fails on the code: an image is opened and saved as its intermediate
    PDF, reading that file back raises, and [convert_to_pdf] leaves with
    the exception while [scan.temp.pdf], absent before, is still there. *)
Theorem temp_file_left_behind_when_read_back_fails :
  fs_lookup [("scan.png", File)] "scan.temp.pdf" = None
  /\ fst (convert_to_pdf example_codecs "scan.png" (blank [("scan.png", File)]))
     = Raise (mkExn PdfReadError "EOF marker not found")
  /\ fs_lookup
       (w_fs (snd (convert_to_pdf example_codecs "scan.png" (blank [("scan.png", File)]))))
       "scan.temp.pdf"
     = Some File.
Proof. repeat split. Qed.

(** ** The outcome of [process] *)

Lemma logger_run lvl msg args w :
  logger lvl msg args w = (Return tt, append_log w [mkLog lvl msg args]).
Proof. reflexivity. Qed.













Lemma load_config_inv E w config w' :
  load_config E w = (Return config, w') ->
  exists cfg,
    config = VDict cfg
    /\ json_load E (config_path (w_self w)) = Return (VDict cfg)
    /\ dict_has "files" cfg = true
    /\ w_self w' = w_self w /\ w_fs w' = w_fs w.
Proof.
  unfold load_config. unfold_monad. simpl.
  destruct (json_load E (config_path (w_self w))) as [v|e].
  - destruct v as [| | | | |cfg]; simpl; try discriminate.
    destruct (dict_has "files" cfg) eqn:Hhas; simpl; [|discriminate].
    intros H. injection H as <- <-. exists cfg. repeat split; auto.
  - destruct (exn_class_of e); simpl; discriminate.
Qed.







(** ** The search for a free file name ends *)

Lemma append_assoc a b c : (a +++ b) +++ c = a +++ (b +++ c).
Proof. induction a as [|x a IH]; simpl; [reflexivity | now rewrite IH]. Qed.

Lemma append_inv_head a x y : a +++ x = a +++ y -> x = y.
Proof. induction a as [|c a IH]; simpl; intros H; [exact H | injection H as H; auto]. Qed.

Lemma list_ascii_of_append a b :
  list_ascii_of_string (a +++ b) = list_ascii_of_string a ++ list_ascii_of_string b.
Proof. induction a as [|c a IH]; simpl; [reflexivity | now rewrite IH]. Qed.

Lemma append_inv_tail x y s : x +++ s = y +++ s -> x = y.
Proof.
  intros H. apply (f_equal list_ascii_of_string) in H.
  rewrite !list_ascii_of_append in H. apply app_inv_tail in H.
  apply (f_equal string_of_list_ascii) in H.
  now rewrite !string_of_list_ascii_of_string in H.
Qed.

Lemma decimal_inj a b : Text.decimal a = Text.decimal b -> a = b.
Proof.
  unfold Text.decimal. intros H.
  apply (f_equal NilEmpty.uint_of_string) in H. rewrite !NilEmpty.usu in H.
  injection H as H. now apply Unsigned.to_uint_inj.
Qed.

Lemma concat_snoc pp nm : String.concat "/" (pp ++ [nm]) = joined_prefix pp +++ nm.
Proof.
  induction pp as [|p pp IH]; simpl; [reflexivity|].
  destruct (pp ++ [nm]) eqn:Hl; [now destruct pp|].
  rewrite IH. now rewrite !append_assoc.
Qed.

Lemma to_string_child p nm :
  Path.to_string (Path.child p nm)
  = Path.anchor p +++ joined_prefix (Path.parts p) +++ nm.
Proof.
  unfold Path.to_string, Path.child. simpl.
  destruct (Path.parts p ++ [nm]) eqn:Hl; [now destruct (Path.parts p)|].
  rewrite <- Hl. now rewrite concat_snoc.
Qed.

Lemma numbered_name_inj filepath a b :
  numbered_name filepath a = numbered_name filepath b -> a = b.
Proof.
  unfold numbered_name. rewrite !to_string_child. intros H.
  do 4 apply append_inv_head in H.
  apply append_inv_tail in H. now apply decimal_inj.
Qed.

Lemma fs_exists_In fs p : fs_exists fs p = true -> In p (map fst fs).
Proof.
  unfold fs_exists. induction fs as [|[k n] fs IH]; simpl; [discriminate|].
  destruct (String.eqb_spec p k) as [->|Hne]; [now left | right; auto].
Qed.

Lemma first_available_taken fs filepath rounds : forall counter,
  fs_exists fs (first_available fs filepath rounds counter) = true ->
  forall k, In k (seq counter (S rounds)) ->
            fs_exists fs (numbered_name filepath k) = true.
Proof.
  induction rounds as [|rounds IH]; intros counter H k Hk; simpl in H.
  - destruct Hk as [<-|[]]. exact H.
  - destruct (fs_exists fs (numbered_name filepath counter)) eqn:Hc; simpl in H.
    + destruct Hk as [<-|Hk]; [exact Hc | now apply (IH (S counter))].
    + congruence.
Qed.

(** The name [get_next_available_filename] returns does not exist: the
    rounds allowed to the search are never used up. *)
Lemma first_available_free fs filepath :
  fs_exists fs (first_available fs filepath (List.length fs) 1) = false.
Proof.
  destruct (fs_exists fs (first_available fs filepath (List.length fs) 1)) eqn:H;
    [|reflexivity].
  exfalso.
  pose proof (first_available_taken fs filepath (List.length fs) 1 H) as Hall.
  assert (NoDup (map (numbered_name filepath) (seq 1 (S (List.length fs))))) as Hnd.
  { apply Finite.Injective_map_NoDup; [|apply seq_NoDup].
    intros a b. apply numbered_name_inj. }
  assert (incl (map (numbered_name filepath) (seq 1 (S (List.length fs)))) (map fst fs))
    as Hincl.
  { intros nm Hnm. apply in_map_iff in Hnm. destruct Hnm as (k & <- & Hk).
    apply fs_exists_In. now apply Hall. }
  pose proof (NoDup_incl_length Hnd Hincl) as Hlen.
  rewrite !length_map, length_seq in Hlen. lia.
Qed.

Lemma get_next_available_filename_free filepath w :
  exists nm,
    get_next_available_filename filepath w = (Return nm, w)
    /\ fs_exists (w_fs w) nm = false.
Proof.
  eexists. split; [reflexivity | apply first_available_free].
Qed.

(** ** The page transformations compose *)

Lemma mat_then_apply m t pt :
  (fst (mat_apply (mat_then m t) pt) == fst (mat_apply t (mat_apply m pt)))%Q
  /\ (snd (mat_apply (mat_then m t) pt) == snd (mat_apply t (mat_apply m pt)))%Q.
Proof.
  destruct pt as [x y]. destruct m, t. simpl. split; ring.
Qed.

(** ** The free file name and the prompt *)

Lemma first_available_first fs filepath rounds : forall counter,
  exists k,
    (counter <= k <= counter + rounds)%nat
    /\ first_available fs filepath rounds counter = numbered_name filepath k
    /\ forall j, (counter <= j < k)%nat ->
                 fs_exists fs (numbered_name filepath j) = true.
Proof.
  induction rounds as [|rounds IH]; intros counter; simpl.
  - exists counter. split; [lia|]. split; [reflexivity|]. intros j Hj. lia.
  - destruct (fs_exists fs (numbered_name filepath counter)) eqn:Hc; simpl.
    + destruct (IH (S counter)) as (k & Hk & Heq & Hbelow).
      exists k. split; [lia|]. split; [exact Heq|].
      intros j Hj. destruct (Nat.eq_dec j counter) as [->|Hne]; [exact Hc|].
      apply Hbelow. lia.
    + exists counter. split; [lia|]. split; [reflexivity|]. intros j Hj. lia.
Qed.

(** X1.  [get_next_available_filename] returns the numbered name with the
    smallest counter, from 1 on, that does not exist: the name is free and
    every name with a smaller counter exists.  It changes nothing. *)
Theorem next_available_filename_is_first_free :
  forall filepath w,
  exists k,
    (1 <= k)%nat
    /\ get_next_available_filename filepath w = (Return (numbered_name filepath k), w)
    /\ fs_exists (w_fs w) (numbered_name filepath k) = false
    /\ forall j, (1 <= j < k)%nat ->
                 fs_exists (w_fs w) (numbered_name filepath j) = true.
Proof.
  intros filepath w.
  destruct (first_available_first (w_fs w) filepath (List.length (w_fs w)) 1)
    as (k & Hk & Heq & Hbelow).
  exists k. split; [lia|]. split.
  - unfold get_next_available_filename. unfold_monad. now rewrite Heq.
  - split; [|exact Hbelow]. rewrite <- Heq. apply first_available_free.
Qed.

Ltac prompt_step :=
  simpl handle_existing_file_loop; unfold get_next_available_filename;
  unfold_monad; simpl.

Lemma prompt_skips_invalid_line s rest w :
  invalid_line s = true ->
  exists w2,
    handle_existing_file_loop (Line s :: rest) w = handle_existing_file_loop rest w2
    /\ w_self w2 = w_self w /\ w_fs w2 = w_fs w.
Proof.
  unfold invalid_line. intros H.
  apply andb_true_iff in H. destruct H as [H H3].
  apply andb_true_iff in H. destruct H as [H1 H2].
  apply negb_true_iff in H1, H2, H3.
  prompt_step. rewrite H1, H2, H3.
  eexists. split; [reflexivity|]. split; reflexivity.
Qed.

Lemma prompt_ends ev rest w :
  ends_prompt ev = true ->
  exists w',
    handle_existing_file_loop (ev :: rest) w = (Return (answer w ev), w')
    /\ w_stdin w' = rest /\ w_self w' = w_self w /\ w_fs w' = w_fs w.
Proof.
  destruct ev as [s|]; simpl ends_prompt; intros H.
  - unfold invalid_line in H. apply negb_true_iff in H.
    prompt_step.
    destruct (String.eqb (Text.strip s) "1");
      [eexists; split; [reflexivity|repeat split]|].
    destruct (String.eqb (Text.strip s) "2");
      [eexists; split; [reflexivity|repeat split]|].
    destruct (String.eqb (Text.strip s) "3");
      [eexists; split; [reflexivity|repeat split]|].
    discriminate.
  - prompt_step. eexists; split; [reflexivity|repeat split].
Qed.



Lemma handle_existing_file_prompts w :
  fs_exists (w_fs w) (normal (output_path (w_self w))) = true ->
  handle_existing_file w
  = handle_existing_file_loop (w_stdin w)
      (append_log w [mkLog WARNING "Output file already exists: {}"
                           [VStr (output_path (w_self w))]]).
Proof.
  unfold normal. intros H. unfold handle_existing_file. unfold_monad.
  rewrite H. reflexivity.
Qed.





Lemma prompt_loop_safe events : forall w,
  match fst (handle_existing_file_loop events w) with
  | Return (Some p) =>
      p = output_path (w_self w) \/ fs_exists (w_fs w) p = false
  | Return None => True
  | Raise e => exn_class_of e = EOFError
  end.
Proof.
  induction events as [|ev rest IH]; intros w.
  - prompt_step. reflexivity.
  - destruct (ends_prompt ev) eqn:Hev.
    + destruct (prompt_ends ev rest w Hev) as (w' & -> & _). simpl fst.
      destruct ev as [s|]; simpl; [|exact I].
      destruct (String.eqb (Text.strip s) "1"); [now left|].
      destruct (String.eqb (Text.strip s) "2"); [|exact I].
      right. apply first_available_free.
    + destruct ev as [s|]; [|discriminate]. simpl in Hev.
      apply negb_false_iff in Hev.
      destruct (prompt_skips_invalid_line s rest w Hev) as (w2 & -> & Hself & Hfs).
      specialize (IH w2). rewrite Hself, Hfs in IH. exact IH.
Qed.

(** X4.  Whatever is typed, [handle_existing_file] leaves the converter
    object and the file system as they are, and a path it answers is the
    configured output path or a path that does not exist.  It answers
    [None] or raises (an [EOFError]) only when the output file exists. *)
Theorem handle_existing_file_never_picks_another_existing_file :
  forall w,
    w_self (snd (handle_existing_file w)) = w_self w
    /\ w_fs (snd (handle_existing_file w)) = w_fs w
    /\ match fst (handle_existing_file w) with
       | Return (Some p) =>
           p = output_path (w_self w) \/ fs_exists (w_fs w) p = false
       | Return None =>
           fs_exists (w_fs w) (normal (output_path (w_self w))) = true
       | Raise e =>
           exn_class_of e = EOFError
           /\ fs_exists (w_fs w) (normal (output_path (w_self w))) = true
       end.
Proof.
  intros w.
  destruct (handle_existing_file w) as [r w'] eqn:Hh.
  destruct (handle_existing_file_keeps w r w' Hh) as [Hself Hfs].
  split; [exact Hself|]. split; [exact Hfs|]. simpl fst.
  destruct (fs_exists (w_fs w) (normal (output_path (w_self w)))) eqn:Hex.
  - rewrite (handle_existing_file_prompts w Hex) in Hh.
    pose proof (prompt_loop_safe (w_stdin w)
                  (append_log w [mkLog WARNING "Output file already exists: {}"
                                       [VStr (output_path (w_self w))]])) as Hsafe.
    rewrite Hh in Hsafe. simpl in Hsafe.
    destruct r as [[p|]|e]; auto.
  - unfold handle_existing_file, normal in *. unfold_monad. rewrite Hex in Hh.
    simpl in Hh. injection Hh as <- _. now left.
Qed.

(** ** Loading the configuration *)

(** X5.  [load_config] returns exactly when the file parses to a
    dictionary with a [files] key, whatever the value under that key; it
    returns the dictionary as parsed and writes one INFO record.  Any other
    parsed value makes it raise [ValueError], with nothing logged. *)
Theorem load_config_accepts_dictionaries_with_files :
  forall E w,
    (forall config w',
        load_config E w = (Return config, w') <->
        exists cfg,
          config = VDict cfg
          /\ json_load E (config_path (w_self w)) = Return (VDict cfg)
          /\ dict_has "files" cfg = true
          /\ w' = append_log w [mkLog INFO "Successfully loaded configuration from {}"
                                      [VStr (config_path (w_self w))]])
    /\ (forall v,
           json_load E (config_path (w_self w)) = Return v ->
           match v with VDict cfg => dict_has "files" cfg = false | _ => True end ->
           exists e,
             load_config E w = (Raise e, w) /\ exn_class_of e = ValueError).
Proof.
  intros E w. split.
  - intros config w'. split.
    + unfold load_config. unfold_monad. simpl.
      destruct (json_load E (config_path (w_self w))) as [v|e].
      * destruct v as [| | | | |cfg]; simpl; try discriminate.
        destruct (dict_has "files" cfg) eqn:Hhas; simpl; [|discriminate].
        intros H. injection H as <- <-. exists cfg. repeat split; auto.
      * destruct (exn_class_of e); simpl; discriminate.
    + intros (cfg & -> & Hj & Hhas & ->). now apply load_config_run.
  - intros v Hj Hv. unfold load_config. unfold_monad. simpl. rewrite Hj.
    destruct v as [| | | | |cfg]; simpl; try (eexists; split; reflexivity).
    rewrite Hv. simpl. eexists; split; reflexivity.
Qed.

Lemma load_config_accepts_dictionaries_with_files_witness :
  exists e,
    load_config list_config_codecs example_run = (Raise e, example_run)
    /\ exn_class_of e = ValueError.
Proof.
  exact (proj2 (load_config_accepts_dictionaries_with_files list_config_codecs example_run)
               (VList [VStr "a.pdf"]) eq_refl I).
Defined.

(** X6.  An exception of the JSON reader leaves [load_config] as it came:
    the same exception is raised again.  It is logged at level ERROR when
    it is a [JSONDecodeError] or a [FileNotFoundError], and not logged
    otherwise. *)
Theorem load_config_raises_what_the_reader_raises :
  forall E w e,
    json_load E (config_path (w_self w)) = Raise e ->
    load_config E w = (Raise e, append_log w (load_error_records w e)).
Proof.
  intros E w e Hj. unfold load_config, load_error_records. unfold_monad. simpl.
  rewrite Hj. unfold is_class.
  destruct (exn_class_of e); simpl; try reflexivity; now rewrite append_log_nil.
Qed.

Lemma load_config_raises_what_the_reader_raises_witness :
  load_config unreadable_config_codecs example_run
  = (Raise (mkExn OSError "Permission denied"),
     append_log example_run
       (load_error_records example_run (mkExn OSError "Permission denied"))).
Proof.
  exact (load_config_raises_what_the_reader_raises unreadable_config_codecs example_run
           (mkExn OSError "Permission denied") eq_refl).
Defined.

(** ** Expansion of a path *)

(** X7.  Without recursion a directory expands to its regular files only,
    each as the path of the directory joined with the name, in
    lexicographical order of these paths: sub-directories and other
    entries are left out. *)
Theorem plain_expansion_lists_sorted_regular_files :
  forall w d es,
    fs_lookup (w_fs w) (normal d) = Some (Dir es) ->
    exists files,
      fst (get_files_from_path (VStr d) false w) = Return files
      /\ StronglySorted str_le files
      /\ Permutation
           (map (fun nm => Path.to_string (Path.child (Path.of_string d) nm))
                (regular_names es))
           files.
Proof.
  intros w d es H.
  exists (glob_files (Path.of_string d) es). split.
  - unfold get_files_from_path, normal in *. unfold_monad. simpl. now rewrite H.
  - unfold glob_files. split; [apply sorted_str_sorted | apply sorted_str_perm].
Qed.

Lemma plain_expansion_lists_sorted_regular_files_witness :
  exists files,
    fst (get_files_from_path (VStr "d") false (blank [("d", mixed_directory)]))
    = Return files
    /\ StronglySorted str_le files
    /\ Permutation
         (map (fun nm => Path.to_string (Path.child (Path.of_string "d") nm))
              (regular_names [("c.jpg", File); ("sub", Dir [("x.pdf", File)]);
                              ("b.png", File); ("pipe", Special); ("a.pdf", File)]))
         files.
Proof.
  exact (plain_expansion_lists_sorted_regular_files (blank [("d", mixed_directory)]) "d"
           [("c.jpg", File); ("sub", Dir [("x.pdf", File)]); ("b.png", File);
            ("pipe", Special); ("a.pdf", File)] eq_refl).
Defined.

Lemma os_walk_Dir top es :
  os_walk top (Dir es)
  = (top, dirnames es, nondirnames es)
    :: flat_map (fun e => os_walk (os_path_join top (fst e)) (snd e)) es.
Proof.
  simpl. f_equal. induction es as [|[nm c] es IH]; simpl; [reflexivity|].
  now rewrite IH.
Qed.

Lemma os_walk_below n : forall top it,
  In it (os_walk top n) ->
  match n with
  | Dir es =>
      exists root es',
        below top es root es' /\ it = (root, dirnames es', nondirnames es')
  | _ => False
  end.
Proof.
  induction n as [| |es IH] using node_induction; intros top it Hin;
    try (simpl in Hin; contradiction).
  rewrite os_walk_Dir in Hin. destruct Hin as [<-|Hin].
  - exists top, es. split; [constructor | reflexivity].
  - apply in_flat_map in Hin. destruct Hin as ([nm c] & Hc & Hin). simpl in Hin.
    rewrite Forall_forall in IH. specialize (IH (nm, c) Hc _ _ Hin). simpl in IH.
    destruct c as [| |sub]; try contradiction.
    destruct IH as (root & es' & Hb & ->).
    exists root, es'. split; [|reflexivity]. eapply below_child; eauto.
Qed.

Lemma below_os_walk top es root es' :
  below top es root es' ->
  In (root, dirnames es', nondirnames es') (os_walk top (Dir es)).
Proof.
  induction 1 as [top es|top es nm sub root es' Hin _ IH]; rewrite os_walk_Dir.
  - now left.
  - right. apply in_flat_map. exists (nm, Dir sub). split; [exact Hin | exact IH].
Qed.

(** X8.  With recursion a directory expands to the entries that are not
    directories of the directory itself and of every directory under it,
    at any depth, each joined to the path of its directory: nothing else
    is returned and none of them is missing. *)
Theorem recursive_expansion_is_complete :
  forall w d es,
    fs_lookup (w_fs w) (normal d) = Some (Dir es) ->
    exists files,
      fst (get_files_from_path (VStr d) true w) = Return files
      /\ forall f,
          In f files <->
          exists root es' nm,
            below (normal d) es root es'
            /\ In nm (nondirnames es')
            /\ f = under root nm.
Proof.
  intros w d es H. exists (walk_files (normal d) (Dir es)).
  split; [now apply get_files_from_path_recursive|].
  intros f. unfold walk_files. rewrite in_flat_map. split.
  - intros (it & Hit & Hf).
    apply (Permutation_in _ (Permutation_sym (sorted_by_perm walk_item_lt _))) in Hit.
    apply os_walk_below in Hit. destruct Hit as (root & es' & Hb & ->).
    apply in_map_iff in Hf. destruct Hf as (nm & <- & Hnm).
    apply (Permutation_in _ (Permutation_sym (sorted_str_perm _))) in Hnm.
    exists root, es', nm. repeat split; assumption.
  - intros (root & es' & nm & Hb & Hnm & ->).
    exists (root, dirnames es', nondirnames es'). split.
    + apply (Permutation_in _ (sorted_by_perm walk_item_lt _)).
      now apply below_os_walk.
    + apply in_map_iff. exists nm. split; [reflexivity|].
      now apply (Permutation_in _ (sorted_str_perm _)).
Qed.

Lemma recursive_expansion_is_complete_witness :
  exists files,
    fst (get_files_from_path (VStr "d") true (blank [("d", mixed_directory)]))
    = Return files
    /\ forall f,
        In f files <->
        exists root es' nm,
          below (normal "d")
                [("c.jpg", File); ("sub", Dir [("x.pdf", File)]); ("b.png", File);
                 ("pipe", Special); ("a.pdf", File)] root es'
          /\ In nm (nondirnames es')
          /\ f = under root nm.
Proof.
  exact (recursive_expansion_is_complete (blank [("d", mixed_directory)]) "d"
           [("c.jpg", File); ("sub", Dir [("x.pdf", File)]); ("b.png", File);
            ("pipe", Special); ("a.pdf", File)] eq_refl).
Defined.

(** ** More on the resolution of the configuration *)

(** X9.  A path given as a plain string among the items is expanded
    without recursion, whatever the inherited options are, and each of its
    files carries the inherited options as they are, at the place the
    string has among the other items. *)
Theorem plain_path_entry_is_expanded_without_recursion :
  forall p inh w pre post r_pre r_post,
    fst (process_files_array (VList pre) inh w) = Return r_pre ->
    fst (process_files_array (VList post) inh w) = Return r_post ->
    fst (process_files_array (VList (pre ++ VStr p :: post)) inh w)
    = Return (r_pre
              ++ map (fun file => mkFileInfo file (or_empty inh))
                     (listing (w_fs w) p false)
              ++ r_post).
Proof.
  intros p inh w pre post r_pre r_post Hpre Hpost.
  rewrite observer_value in * by apply observer_process_files_array.
  apply process_files_array_in_context; auto.
  rewrite process_files_array_single, value_in_process_item_str. reflexivity.
Qed.

Lemma plain_path_entry_is_expanded_without_recursion_witness :
  fst (process_files_array (VList ([] ++ VStr "d" :: []))
         (Some [VStr "recursive"]) (blank example_fs))
  = Return ([] ++ map (fun file => mkFileInfo file (or_empty (Some [VStr "recursive"])))
                      (listing (w_fs (blank example_fs)) "d" false)
               ++ []).
Proof.
  exact (plain_path_entry_is_expanded_without_recursion "d" (Some [VStr "recursive"])
           (blank example_fs) [] [] [] [] eq_refl eq_refl).
Defined.

(** X10.  An item that is neither a string nor a dictionary is passed over
    without a trace: the result, the log and the rest of the world are
    those of the array without the item. *)
Theorem other_items_are_skipped_without_trace :
  forall item inh w pre post,
    isinstance_str item = false ->
    isinstance_dict item = false ->
    process_files_array (VList (pre ++ item :: post)) inh w
    = process_files_array (VList (pre ++ post)) inh w.
Proof.
  intros item inh w pre post Hs Hd.
  rewrite !process_files_array_run, !foldM_app. unfold bind.
  destruct (foldM (process_item (or_empty inh)) pre [] _) as [[acc|e] w1];
    [|reflexivity].
  rewrite foldM_cons_run.
  destruct item; try discriminate; reflexivity.
Qed.

Lemma other_items_are_skipped_without_trace_witness :
  process_files_array (VList ([VStr "z.pdf"] ++ VInt 7 :: [VStr "c.png"])) None
                      (blank example_fs)
  = process_files_array (VList ([VStr "z.pdf"] ++ [VStr "c.png"])) None
                        (blank example_fs).
Proof.
  exact (other_items_are_skipped_without_trace (VInt 7) None (blank example_fs)
           [VStr "z.pdf"] [VStr "c.png"] eq_refl eq_refl).
Defined.

(** X11.  The entries of an array are those of its items in the order of
    the array: resolving [l1 ++ l2] gives the entries of [l1] followed by
    those of [l2], and raises what the first of the two to fail raises. *)
Theorem resolution_follows_the_order_of_the_array :
  forall l1 l2 inh w,
    fst (process_files_array (VList (l1 ++ l2)) inh w) =
    match fst (process_files_array (VList l1) inh w) with
    | Return r1 =>
        match fst (process_files_array (VList l2) inh w) with
        | Return r2 => Return (r1 ++ r2)
        | Raise e => Raise e
        end
    | Raise e => Raise e
    end.
Proof.
  intros l1 l2 inh w.
  rewrite !observer_value by apply observer_process_files_array.
  rewrite process_files_array_app.
  destruct (value_in (w_fs w) (process_files_array (VList l1) inh)); reflexivity.
Qed.

Lemma entry_options_start_with_inherited inh d cur :
  entry_options inh d = Return cur -> exists tail, cur = inh ++ tail.
Proof.
  unfold entry_options. destruct (dict_get "options" d) as [o|].
  - destruct (py_iter o) as [opts|e]; [|discriminate].
    intros H. injection H as <-. eexists. reflexivity.
  - intros H. injection H as <-. exists []. now rewrite app_nil_r.
Qed.

Lemma foldM_keeps {A B} fs (Inv : B -> Prop) (body : B -> A -> M B) l :
  (forall acc x, observer (body acc x)) ->
  (forall acc x acc', value_in fs (body acc x) = Return acc' -> Inv acc -> Inv acc') ->
  forall acc acc',
    value_in fs (foldM body l acc) = Return acc' -> Inv acc -> Inv acc'.
Proof.
  intros Hobs Hstep. induction l as [|x l IH]; intros acc acc' H Hacc.
  - unfold value_in in H. simpl in H. injection H as <-. exact Hacc.
  - rewrite value_in_foldM_cons in H by exact Hobs.
    destruct (value_in fs (body acc x)) as [acc1|e] eqn:Hx; [|discriminate].
    eapply IH; eauto.
Qed.

Lemma add_path_keeps_start fs inh tail r acc v acc' :
  value_in fs (add_path (inh ++ tail) r acc v) = Return acc' ->
  Forall (starts_with inh) acc -> Forall (starts_with inh) acc'.
Proof.
  intros H Hacc. destruct v; try discriminate.
  rewrite value_in_add_path_str in H. injection H as <-.
  unfold append_files. apply Forall_app. split; [exact Hacc|].
  apply Forall_forall. intros info Hin. apply in_map_iff in Hin.
  destruct Hin as (f & <- & _). now exists tail.
Qed.

Lemma process_item_keeps_start fs inh acc item acc' :
  value_in fs (process_item inh acc item) = Return acc' ->
  Forall (starts_with inh) acc -> Forall (starts_with inh) acc'.
Proof.
  intros H Hacc. destruct item;
    try (unfold value_in in H; simpl in H; injection H as <-; exact Hacc).
  - rewrite value_in_process_item_str in H. injection H as <-.
    unfold append_files. apply Forall_app. split; [exact Hacc|].
    apply Forall_forall. intros info Hin. apply in_map_iff in Hin.
    destruct Hin as (f & <- & _). exists []. simpl. now rewrite app_nil_r.
  - rewrite value_in_process_item_dict in H.
    destruct (entry_options inh entries) as [cur|e] eqn:Hcur; [|discriminate].
    destruct (entry_options_start_with_inherited _ _ _ Hcur) as [tail ->].
    destruct (dict_get "files" entries) as [item_files|].
    + destruct (py_sorted item_files) as [sp|e]; [|discriminate].
      revert H Hacc. apply foldM_keeps; auto with observers.
      intros a x a'. apply add_path_keeps_start.
    + injection H as <-. exact Hacc.
Qed.

(** X12.  Inherited options are never dropped or moved: the options of
    every entry [process_files_array] returns start with the inherited
    options, in their order. *)
Theorem inherited_options_lead_every_entry :
  forall items inh w,
    match fst (process_files_array (VList items) inh w) with
    | Return infos => Forall (starts_with (or_empty inh)) infos
    | Raise _ => True
    end.
Proof.
  intros items inh w.
  rewrite observer_value by apply observer_process_files_array.
  rewrite value_in_process_files_array.
  destruct (value_in (w_fs w) (foldM (process_item (or_empty inh)) items []))
    as [infos|e] eqn:H; [|exact I].
  revert H. intros H.
  apply (foldM_keeps (w_fs w) (Forall (starts_with (or_empty inh)))
           (process_item (or_empty inh)) items
           (observer_process_item (or_empty inh))
           (fun acc x acc' => process_item_keeps_start (w_fs w) (or_empty inh) acc x acc')
           [] infos H).
  constructor.
Qed.

(** X13.  Resolving the configuration only reads the file system and
    writes to the log: the converter object, the file system and the
    standard streams are left as they are, earlier records stay in the
    log, and the outcome is the one obtained in a world that holds nothing
    but the file system. *)
Theorem resolution_only_reads_the_file_system :
  forall files inh w,
    fst (process_files_array files inh w)
    = fst (process_files_array files inh (blank (w_fs w)))
    /\ w_self (snd (process_files_array files inh w)) = w_self w
    /\ w_fs (snd (process_files_array files inh w)) = w_fs w
    /\ w_stdin (snd (process_files_array files inh w)) = w_stdin w
    /\ w_stdout (snd (process_files_array files inh w)) = w_stdout w
    /\ exists records,
        w_log (snd (process_files_array files inh w)) = w_log w ++ records.
Proof.
  intros files inh w.
  rewrite (observer_process_files_array files inh w). simpl.
  repeat split. now eexists.
Qed.

(** ** More on the page transformations *)

Lemma value_in_foldM_app {A B} fs (body : B -> A -> M B) l1 l2 :
  (forall acc x, observer (body acc x)) ->
  forall acc,
    value_in fs (foldM body (l1 ++ l2) acc) =
    match value_in fs (foldM body l1 acc) with
    | Return acc' => value_in fs (foldM body l2 acc')
    | Raise e => Raise e
    end.
Proof.
  intros Hobs. induction l1 as [|x l1 IH]; intros acc.
  - reflexivity.
  - simpl app. rewrite !value_in_foldM_cons by exact Hobs.
    destruct (value_in fs (body acc x)); [apply IH | reflexivity].
Qed.

Lemma value_in_apply_transformations fs pg options :
  value_in fs (apply_transformations pg options)
  = value_in fs (foldM apply_option options pg).
Proof.
  unfold apply_transformations. destruct options as [|opt options]; [reflexivity|].
  simpl negb. cbv iota. unfold value_in at 1. unfold bind, logger.
  now rewrite observer_value by (apply observer_foldM; intros; apply observer_apply_option).
Qed.

Lemma value_in_apply_option_other fs pg opt :
  is_transformation opt = false ->
  value_in fs (apply_option pg opt) = Return pg.
Proof.
  unfold is_transformation, apply_option. intros H.
  repeat (apply orb_false_iff in H; destruct H as [H ?]).
  repeat match goal with Heq : py_eq _ _ = false |- _ => rewrite Heq; clear Heq end.
  destruct (py_eq opt (VStr "recursive")); reflexivity.
Qed.

(** X14.  An option that is not one of the five transformations
    ([recursive], an unknown name, a value that is not a string) has no
    effect on the page, wherever it stands in the list: the page returned
    is the one returned for the list without it. *)
Theorem other_options_leave_the_page_alone :
  forall opt l1 l2 pg w,
    is_transformation opt = false ->
    fst (apply_transformations pg (l1 ++ opt :: l2) w)
    = fst (apply_transformations pg (l1 ++ l2) w).
Proof.
  intros opt l1 l2 pg w Hopt.
  rewrite !observer_value by apply observer_apply_transformations.
  rewrite !value_in_apply_transformations.
  rewrite !value_in_foldM_app by (intros; apply observer_apply_option).
  destruct (value_in (w_fs w) (foldM apply_option l1 pg)) as [p1|e]; [|reflexivity].
  rewrite value_in_foldM_cons by (intros; apply observer_apply_option).
  now rewrite (value_in_apply_option_other _ _ _ Hopt).
Qed.

Lemma other_options_leave_the_page_alone_witness :
  fst (apply_transformations letter_page
         ([VStr "rotate90"] ++ VStr "mirror" :: [VStr "rotate180"]) (blank []))
  = fst (apply_transformations letter_page
           ([VStr "rotate90"] ++ [VStr "rotate180"]) (blank [])).
Proof.
  exact (other_options_leave_the_page_alone (VStr "mirror") [VStr "rotate90"]
           [VStr "rotate180"] letter_page (blank []) eq_refl).
Defined.

(** ** More on the conversion of one file *)

Lemma fs_lookup_create_other fs p q : q <> p -> fs_lookup (fs_create fs p) q = fs_lookup fs q.
Proof.
  intros Hne. unfold fs_create. simpl.
  destruct (String.eqb_spec q p) as [->|_]; [now elim Hne|].
  unfold fs_remove. induction fs as [|[k n] fs IH]; simpl; [reflexivity|].
  destruct (String.eqb_spec p k) as [<-|Hpk]; simpl.
  - destruct (String.eqb_spec q p) as [->|_]; [now elim Hne | exact IH].
  - now rewrite IH.
Qed.

Lemma fs_lookup_remove_other fs p q : q <> p -> fs_lookup (fs_remove fs p) q = fs_lookup fs q.
Proof.
  intros Hne. unfold fs_remove. induction fs as [|[k n] fs IH]; simpl; [reflexivity|].
  destruct (String.eqb_spec p k) as [<-|Hpk]; simpl.
  - destruct (String.eqb_spec q p) as [->|_]; [now elim Hne | exact IH].
  - now rewrite IH.
Qed.

Lemma convert_to_pdf_frame :
  forall E p w,
    w_self (snd (convert_to_pdf E p w)) = w_self w
    /\ w_stdin (snd (convert_to_pdf E p w)) = w_stdin w
    /\ w_stdout (snd (convert_to_pdf E p w)) = w_stdout w
    /\ (forall q, q <> temp_pdf_path p ->
                  fs_lookup (w_fs (snd (convert_to_pdf E p w))) q = fs_lookup (w_fs w) q)
    /\ (is_pdf p = true \/ is_image p = false ->
        w_fs (snd (convert_to_pdf E p w)) = w_fs w).
Proof.
  intros E p w.
  unfold is_pdf, is_image, lowered_suffix, temp_pdf_path, convert_to_pdf, img_save, os_remove.
  destruct (String.eqb (Text.lower (Path.suffix (Path.of_string p))) ".pdf").
  { unfold_monad. simpl. destruct (PdfReader E _); simpl; repeat split. }
  destruct (existsb _ image_extensions).
  2:{ simpl. repeat split. }
  unfold_monad. simpl.
  destruct (Image_open E _) as [img|e].
  2:{ simpl. repeat split; try (intros [H|H]; discriminate). }
  destruct (String.eqb (image_mode img) "RGBA"); simpl.
  - destruct (Image_convert E img "RGB") as [img'|e].
    2:{ simpl. repeat split; try (intros [H|H]; discriminate). }
    destruct (Image_save E img' _).
    2:{ simpl. repeat split; try (intros [H|H]; discriminate). }
    destruct (PdfReader E _); simpl; rewrite ?fs_lookup_create, ?String.eqb_refl; simpl;
      repeat split; try (intros [H|H]; discriminate); intros q Hq;
      pose proof (proj2 (String.eqb_neq _ _) Hq) as Hq';
      rewrite ?Hq'; rewrite ?fs_lookup_remove_other by exact Hq; reflexivity.
  - destruct (Image_save E img _).
    2:{ simpl. repeat split; try (intros [H|H]; discriminate). }
    destruct (PdfReader E _); simpl; rewrite ?fs_lookup_create, ?String.eqb_refl; simpl;
      repeat split; try (intros [H|H]; discriminate); intros q Hq;
      pose proof (proj2 (String.eqb_neq _ _) Hq) as Hq';
      rewrite ?Hq'; rewrite ?fs_lookup_remove_other by exact Hq; reflexivity.
Qed.

(** X16.  [convert_to_pdf] can only touch the file system at the path of
    the intermediate PDF: every other path is afterwards what it was, and
    for a file that is not an image to convert the file system is not
    touched at all.  The converter object and the standard streams are
    left alone. *)
Theorem conversion_touches_only_the_intermediate_file :
  forall E p w,
    w_self (snd (convert_to_pdf E p w)) = w_self w
    /\ w_stdin (snd (convert_to_pdf E p w)) = w_stdin w
    /\ w_stdout (snd (convert_to_pdf E p w)) = w_stdout w
    /\ (forall q, q <> temp_pdf_path p ->
                  fs_lookup (w_fs (snd (convert_to_pdf E p w))) q = fs_lookup (w_fs w) q)
    /\ (is_pdf p = true \/ is_image p = false ->
        w_fs (snd (convert_to_pdf E p w)) = w_fs w).
Proof. exact convert_to_pdf_frame. Qed.

Lemma conversion_touches_only_the_intermediate_file_witness :
  fs_lookup
    (w_fs (snd (convert_to_pdf example_codecs "scan.png" (blank [("scan.png", File)]))))
    "scan.png"
  = fs_lookup (w_fs (blank [("scan.png", File)])) "scan.png".
Proof.
  exact (proj1 (proj2 (proj2 (proj2
           (conversion_touches_only_the_intermediate_file example_codecs "scan.png"
              (blank [("scan.png", File)])))))
           "scan.png" ltac:(vm_compute; discriminate)).
Defined.

(** X17.  Converting an image removes whatever is at the path of the
    intermediate PDF: when [convert_to_pdf] returns for an image, no file
    is left there, also when one was there before the call. *)
Theorem conversion_of_an_image_clears_the_intermediate_path :
  forall E p w r w',
    is_pdf p = false ->
    is_image p = true ->
    convert_to_pdf E p w = (Return r, w') ->
    fs_lookup (w_fs w') (temp_pdf_path p) = None.
Proof.
  intros E p w r w'. apply convert_to_pdf_removes_temp_on_return.
Qed.

Lemma conversion_of_an_image_clears_the_intermediate_path_witness :
  fs_lookup (w_fs crowded_world) "scan.temp.pdf" = Some File
  /\ fs_lookup (w_fs (snd (convert_to_pdf nested_codecs "scan.png" crowded_world)))
               (temp_pdf_path "scan.png")
     = None.
Proof.
  split; [reflexivity|].
  exact (conversion_of_an_image_clears_the_intermediate_path nested_codecs "scan.png"
           crowded_world (Some [])
           (snd (convert_to_pdf nested_codecs "scan.png" crowded_world))
           eq_refl eq_refl eq_refl).
Defined.

(** ** The pages of the output *)

Lemma value_in_apply_option_fs fs pg opt :
  value_in fs (apply_option pg opt) = value_in [] (apply_option pg opt).
Proof.
  unfold apply_option.
  repeat match goal with
         | |- context [if py_eq opt ?v then _ else _] => destruct (py_eq opt v)
         end; reflexivity.
Qed.

Lemma value_in_foldM_apply_option_fs fs options : forall pg,
  value_in fs (foldM apply_option options pg)
  = value_in [] (foldM apply_option options pg).
Proof.
  induction options as [|opt options IH]; intros pg; [reflexivity|].
  rewrite !value_in_foldM_cons by (intros; apply observer_apply_option).
  rewrite (value_in_apply_option_fs fs).
  destruct (value_in [] (apply_option pg opt)); [apply IH | reflexivity].
Qed.

Lemma apply_transformations_run pg options w pg' w' :
  apply_transformations pg options w = (Return pg', w') ->
  pg' = transformed options pg
  /\ has_flip options = false
  /\ exists records, w' = append_log w records.
Proof.
  intros H. split; [|split].
  - rewrite (observer_apply_transformations pg options w) in H.
    injection H as Hv _. unfold transformed.
    rewrite value_in_apply_transformations in *.
    rewrite <- (value_in_foldM_apply_option_fs (w_fs w)). now rewrite Hv.
  - pose proof (apply_transformations_cases options pg w) as Hc.
    destruct (has_flip options); [|reflexivity].
    destruct Hc as (e & w1 & Hc & _). rewrite H in Hc. discriminate.
  - rewrite (observer_apply_transformations pg options w) in H.
    injection H as _ <-. now eexists.
Qed.

Lemma add_page_run options (np : nat * page) w w' :
  (logger DEBUG "Processing page {}" [VInt (Z.of_nat (fst np))] ;;
   transformed_page <- apply_transformations (snd np) options ;;
   writer_add_page transformed_page) w
  = (Return tt, w') ->
  has_flip options = false
  /\ writer (w_self w') = writer (w_self w) ++ [transformed options (snd np)]
  /\ config_path (w_self w') = config_path (w_self w)
  /\ output_path (w_self w') = output_path (w_self w)
  /\ w_fs w' = w_fs w.
Proof.
  intros H. rewrite (bind_Return _ _ _ _ _ (logger_run _ _ _ w)) in H.
  unfold bind at 1 in H.
  match type of H with
  | context [apply_transformations ?pg ?o ?w1] =>
      destruct (apply_transformations pg o w1) as [[pg'|e] w2] eqn:Ha; [|discriminate]
  end.
  destruct (apply_transformations_run _ _ _ _ _ Ha) as (-> & Hflip & records & ->).
  unfold writer_add_page in H. unfold_monad. simpl in H. injection H as <-.
  simpl. repeat split. exact Hflip.
Qed.

Lemma add_pages_run options (numbered : list (nat * page)) : forall w w',
  for_each numbered
    (fun np =>
       logger DEBUG "Processing page {}" [VInt (Z.of_nat (fst np))] ;;
       transformed_page <- apply_transformations (snd np) options ;;
       writer_add_page transformed_page) w
  = (Return tt, w') ->
  (numbered <> [] -> has_flip options = false)
  /\ writer (w_self w')
     = writer (w_self w) ++ map (fun np => transformed options (snd np)) numbered
  /\ config_path (w_self w') = config_path (w_self w)
  /\ output_path (w_self w') = output_path (w_self w)
  /\ w_fs w' = w_fs w.
Proof.
  induction numbered as [|np numbered IH]; intros w w' H.
  - simpl in H. injection H as <-. simpl. rewrite app_nil_r. repeat split.
    intros Hne. now elim Hne.
  - simpl for_each in H. unfold bind at 1 in H. cbv beta in H.
    match type of H with
    | context [match ?m w with _ => _ end] =>
        destruct (m w) as [[[]|e] w1] eqn:H1; [|discriminate]
    end.
    apply add_page_run in H1. destruct H1 as (Hflip & Hw1 & Hc1 & Ho1 & Hf1).
    apply IH in H. destruct H as (_ & Hw & Hc & Ho & Hf).
    split; [intros _; exact Hflip|].
    rewrite Hw, Hw1, <- app_assoc. repeat split; congruence.
Qed.

Lemma map_snd_numbered {A B} (f : A -> B) (l : list A) : forall start,
  map (fun np : nat * A => f (snd np)) (combine (seq start (List.length l)) l) = map f l.
Proof.
  induction l as [|x l IH]; intros start; simpl; [reflexivity|]. now rewrite IH.
Qed.

Lemma process_file_run E info w w' :
  process_file E info w = (Return tt, w') ->
  writer (w_self w') = writer (w_self w) ++ pages_of E info
  /\ (has_flip (fi_options info) = true -> without_pages E info)
  /\ config_path (w_self w') = config_path (w_self w)
  /\ output_path (w_self w') = output_path (w_self w).
Proof.
  unfold process_file, pages_of, without_pages. intros H.
  rewrite (bind_Return _ _ _ _ _ (logger_run _ _ _ w)) in H.
  set (w1 := append_log w _) in H.
  assert (exists records,
             when (nonempty (fi_options info))
                  (logger INFO "  With options: {}" [VList (fi_options info)]) w1
             = (Return tt, append_log w1 records)) as [records Hwhen].
  { destruct (nonempty (fi_options info)); simpl.
    - eexists. apply logger_run.
    - exists []. unfold ret. now rewrite append_log_nil. }
  rewrite (bind_Return _ _ _ _ _ Hwhen) in H.
  set (w2 := append_log w1 records) in H.
  pose proof (convert_to_pdf_value E (fi_path info) w2) as Hval.
  destruct (convert_to_pdf_frame E (fi_path info) w2) as (Hself & _).
  destruct (convert_to_pdf E (fi_path info) w2) as [[r|e] w3] eqn:Hc;
    simpl in Hval, Hself; rewrite <- Hval.
  - rewrite (bind_Return _ _ _ _ _ Hc) in H. destruct r as [reader_pages|].
    + rewrite (bind_Return _ _ _ _ _ (logger_run _ _ _ w3)) in H.
      apply add_pages_run in H. destruct H as (Hflip & Hw & Hcp & Hop & _).
      simpl in Hw, Hcp, Hop.
      rewrite Hw, Hcp, Hop, Hself, map_snd_numbered. repeat split.
      intros Hf. destruct reader_pages as [|pg reader_pages]; [now right|].
      rewrite Hflip in Hf; [discriminate | simpl; discriminate].
    + rewrite logger_run in H. injection H as <-. simpl.
      rewrite Hself, app_nil_r. repeat split. intros _. now left.
  - rewrite (bind_Raise _ _ _ _ _ Hc) in H. discriminate.
Qed.

Lemma for_each_process_file_writer E infos : forall w w',
  for_each infos (process_file E) w = (Return tt, w') ->
  writer (w_self w') = writer (w_self w) ++ flat_map (pages_of E) infos
  /\ Forall (fun info => has_flip (fi_options info) = true -> without_pages E info) infos
  /\ config_path (w_self w') = config_path (w_self w)
  /\ output_path (w_self w') = output_path (w_self w).
Proof.
  induction infos as [|info infos IH]; intros w w' H; simpl in H.
  - injection H as <-. simpl. rewrite app_nil_r. repeat split. constructor.
  - unfold bind in H.
    destruct (process_file E info w) as [[[]|e] w1] eqn:H1; [|discriminate].
    apply process_file_run in H1. destruct H1 as (Hw1 & Hflip & Hc1 & Ho1).
    destruct (IH _ _ H) as (Hw & Hall & Hc & Ho).
    simpl. rewrite Hw, Hw1, <- app_assoc. repeat split; try congruence.
    now constructor.
Qed.

Lemma process_true_body E w w' :
  process E w = (Return true, w') -> process_body E w = (Return true, w').
Proof.
  unfold process, try_except.
  destruct (process_body E w) as [[b|e] w1]; [trivial|].
  destruct (is_Exception e); unfold_monad; simpl; discriminate.
Qed.

Lemma process_body_true_state E w w' :
  process_body E w = (Return true, w') ->
  exists final w1 cfg files infos,
    handle_existing_file w = (Return (Some final), w1)
    /\ json_load E (config_path (w_self w)) = Return (VDict cfg)
    /\ dict_get "files" cfg = Some files
    /\ value_in (w_fs w) (process_files_array files None) = Return infos
    /\ writer (w_self w') = writer (w_self w) ++ flat_map (pages_of E) infos
    /\ output_path (w_self w') = final
    /\ open_wb E final = Return tt
    /\ writer_write E (writer (w_self w')) = Return tt
    /\ fs_lookup (w_fs w') (normal final) = Some File
    /\ Forall (fun info => has_flip (fi_options info) = true -> without_pages E info)
              infos.
Proof.
  unfold process_body. intros H. unfold bind at 1 in H.
  destruct (handle_existing_file w) as [[[final|]|e] w1] eqn:Hh; try discriminate.
  destruct (handle_existing_file_keeps w _ _ Hh) as [Hself Hfs].
  rewrite (bind_Return _ _ _ _ _ (set_output_path_run final w1)) in H.
  unfold bind at 1 in H.
  destruct (load_config E (with_output_path w1 final)) as [[config|e] w2] eqn:Hl;
    [|discriminate].
  destruct (load_config_inv _ _ _ _ Hl) as (cfg & -> & Hj & Hhas & Hs2 & Hf2).
  simpl in Hj. rewrite Hself in Hj.
  unfold bind at 1 in H. unfold getitem in H.
  destruct (dict_get "files" cfg) as [files|] eqn:Hcfg; [|discriminate].
  unfold ret at 1 in H. unfold bind at 1 in H.
  pose proof (observer_process_files_array files None w2) as Hrun.
  rewrite Hrun in H.
  destruct (value_in (w_fs w2) (process_files_array files None)) as [infos|e] eqn:Hres;
    [|discriminate].
  rewrite (bind_Return _ _ _ _ _ (logger_run _ _ _ _)) in H.
  unfold bind at 1 in H.
  match type of H with
  | context [for_each infos (process_file E) ?w4] =>
      destruct (for_each infos (process_file E) w4) as [[[]|e] w5] eqn:Hfor;
      [|discriminate]
  end.
  destruct (for_each_process_file_writer _ _ _ _ Hfor) as (Hw & Hall & _ & Hout).
  simpl in Hw, Hout. rewrite Hs2 in Hw, Hout. simpl in Hw, Hout.
  unfold_monad. simpl in H. rewrite Hout in H.
  destruct (open_wb E final) as [[]|e] eqn:Hopen; [|discriminate].
  destruct (writer_write E (writer (w_self w5))) as [[]|e] eqn:Hwrite; [|discriminate].
  injection H as <-. simpl.
  exists final, w1, cfg, files, infos.
  repeat split; auto.
  - simpl in Hf2. rewrite <- Hfs, <- Hf2. exact Hres.
  - rewrite Hw. now rewrite Hself.
  - unfold normal. apply fs_lookup_create.
Qed.

(** X18.  A run that returns [True] has put into the writer, after the
    pages it held, the pages of the resolved files in the order of the
    resolved list, each page transformed by the options of its file, the
    pages of one file in the order of the reader; files of unsupported
    types add none.  That list of pages is what was written. *)
Theorem pages_are_assembled_in_resolution_order :
  forall E w w',
    process E w = (Return true, w') ->
    exists cfg files infos,
      json_load E (config_path (w_self w)) = Return (VDict cfg)
      /\ dict_get "files" cfg = Some files
      /\ value_in (w_fs w) (process_files_array files None) = Return infos
      /\ writer (w_self w') = writer (w_self w) ++ flat_map (pages_of E) infos
      /\ writer_write E (writer (w_self w')) = Return tt.
Proof.
  intros E w w' H. apply process_true_body, process_body_true_state in H.
  destruct H as (final & w1 & cfg & files & infos & _ & Hj & Hc & Hr & Hw & _ & _ & Hwr & _).
  exists cfg, files, infos. repeat split; assumption.
Qed.

(** X19.  A run that returns [True] has written to the path
    [handle_existing_file] answered: that path is the output path of the
    converter object afterwards, it was opened for writing, and a file is
    there when the run ends. *)
Theorem successful_run_writes_the_answered_path :
  forall E w w',
    process E w = (Return true, w') ->
    exists final w1,
      handle_existing_file w = (Return (Some final), w1)
      /\ output_path (w_self w') = final
      /\ open_wb E final = Return tt
      /\ fs_lookup (w_fs w') (normal final) = Some File.
Proof.
  intros E w w' H. apply process_true_body, process_body_true_state in H.
  destruct H as (final & w1 & _ & _ & _ & Hh & _ & _ & _ & _ & Ho & Hopen & _ & Hfs & _).
  exists final, w1. repeat split; assumption.
Qed.

Lemma pages_are_assembled_in_resolution_order_witness :
  exists cfg files infos,
    json_load paged_codecs (config_path (w_self paged_run)) = Return (VDict cfg)
    /\ dict_get "files" cfg = Some files
    /\ value_in (w_fs paged_run) (process_files_array files None) = Return infos
    /\ writer (w_self (snd (process paged_codecs paged_run)))
       = writer (w_self paged_run) ++ flat_map (pages_of paged_codecs) infos
    /\ writer_write paged_codecs (writer (w_self (snd (process paged_codecs paged_run))))
       = Return tt.
Proof.
  apply (pages_are_assembled_in_resolution_order paged_codecs paged_run
           (snd (process paged_codecs paged_run))).
  vm_compute. reflexivity.
Defined.

Lemma successful_run_writes_the_answered_path_witness :
  exists final w1,
    handle_existing_file paged_run = (Return (Some final), w1)
    /\ output_path (w_self (snd (process paged_codecs paged_run))) = final
    /\ open_wb paged_codecs final = Return tt
    /\ fs_lookup (w_fs (snd (process paged_codecs paged_run))) (normal final) = Some File.
Proof.
  apply (successful_run_writes_the_answered_path paged_codecs paged_run
           (snd (process paged_codecs paged_run))).
  vm_compute. reflexivity.
Defined.

(** ** Runs that stop before the conversions *)

Lemma load_config_keeps E : preserves same_self_fs (load_config E).
Proof. unfold load_config. keep. Qed.

Lemma process_keeps_what_the_body_leaves E w r w1 :
  process_body E w = (r, w1) ->
  w_fs (snd (process E w)) = w_fs w1
  /\ writer (w_self (snd (process E w))) = writer (w_self w1).
Proof.
  intros H. unfold process, try_except. rewrite H.
  destruct r as [b|e]; [split; reflexivity|].
  destruct (is_Exception e); split; reflexivity.
Qed.

Lemma process_body_stops_early E w r w' :
  process_body E w = (r, w') ->
  resolves E w
  \/ (w_fs w' = w_fs w /\ writer (w_self w') = writer (w_self w)).
Proof.
  unfold process_body. intros H. unfold bind at 1 in H.
  destruct (handle_existing_file w) as [[[final|]|e] w1] eqn:Hh.
  - destruct (handle_existing_file_keeps w _ _ Hh) as [Hself Hfs].
    rewrite (bind_Return _ _ _ _ _ (set_output_path_run final w1)) in H.
    unfold bind at 1 in H.
    destruct (load_config E (with_output_path w1 final)) as [[config|e] w2] eqn:Hl.
    + destruct (load_config_inv _ _ _ _ Hl) as (cfg & -> & Hj & Hhas & Hs2 & Hf2).
      simpl in Hj, Hf2. rewrite Hself in Hj.
      unfold bind at 1 in H. unfold getitem in H. unfold dict_has in Hhas.
      destruct (dict_get "files" cfg) as [files|] eqn:Hcfg; [|discriminate].
      unfold ret at 1 in H. unfold bind at 1 in H.
      pose proof (observer_process_files_array files None w2) as Hrun.
      rewrite Hrun in H.
      destruct (value_in (w_fs w2) (process_files_array files None)) as [infos|e] eqn:Hres.
      * left. exists final, w1, cfg, files, infos. repeat split; auto.
        rewrite <- Hfs, <- Hf2. exact Hres.
      * right. injection H as _ <-. simpl in Hs2.
        split; simpl; rewrite ?Hf2, ?Hs2; simpl; rewrite ?Hfs, ?Hself; reflexivity.
    + right. injection H as _ <-.
      destruct (load_config_keeps E _ _ _ Hl) as [Hs2 Hf2]. simpl in Hs2, Hf2.
      split; rewrite ?Hf2, ?Hs2; simpl; rewrite ?Hfs, ?Hself; reflexivity.
  - right. destruct (handle_existing_file_keeps w _ _ Hh) as [Hself Hfs].
    unfold_monad. simpl in H. injection H as _ <-. simpl. rewrite Hself, Hfs. split; reflexivity.
  - right. destruct (handle_existing_file_keeps w _ _ Hh) as [Hself Hfs].
    injection H as _ <-. rewrite Hself, Hfs. split; reflexivity.
Qed.

(** X20.  A run that does not get as far as a resolved list of files (the
    user stops at the prompt, standard input ends, the configuration does
    not load, or resolving it raises) writes nothing: the file system and
    the pages held by the writer are what they were. *)
Theorem run_that_does_not_resolve_writes_nothing :
  forall E w,
    resolves E w
    \/ (w_fs (snd (process E w)) = w_fs w
        /\ writer (w_self (snd (process E w))) = writer (w_self w)).
Proof.
  intros E w. destruct (process_body E w) as [r w1] eqn:Hbody.
  destruct (process_keeps_what_the_body_leaves E w r w1 Hbody) as [Hfs Hw].
  destruct (process_body_stops_early E w r w1 Hbody) as [Hres|[Hfs1 Hw1]];
    [now left | right]. split; congruence.
Qed.

(** ** Flips in a run *)

(** X15.  A run that returns [True] has flipped no page: every resolved
    file whose options hold [flipV] or [flipH] added no page, its type
    being unsupported or its reader empty.  A flip raises as soon as it
    meets a page, which ends the run. *)
Theorem successful_run_flipped_no_page :
  forall E w w',
    process E w = (Return true, w') ->
    exists cfg files infos,
      json_load E (config_path (w_self w)) = Return (VDict cfg)
      /\ dict_get "files" cfg = Some files
      /\ value_in (w_fs w) (process_files_array files None) = Return infos
      /\ Forall (fun info => has_flip (fi_options info) = true -> without_pages E info)
                infos.
Proof.
  intros E w w' H. apply process_true_body, process_body_true_state in H.
  destruct H as (final & w1 & cfg & files & infos & _ & Hj & Hc & Hr & _ & _ & _ & _ & _ & Hall).
  exists cfg, files, infos. repeat split; assumption.
Qed.

Lemma successful_run_flipped_no_page_witness :
  exists cfg files infos,
    json_load skipped_flip_codecs (config_path (w_self example_run)) = Return (VDict cfg)
    /\ dict_get "files" cfg = Some files
    /\ value_in (w_fs example_run) (process_files_array files None) = Return infos
    /\ Forall (fun info =>
                 has_flip (fi_options info) = true -> without_pages skipped_flip_codecs info)
              infos.
Proof.
  apply (successful_run_flipped_no_page skipped_flip_codecs example_run
           (snd (process skipped_flip_codecs example_run))).
  vm_compute. reflexivity.
Defined.
